(** * FinanceTracker: document ingestion and AI-assisted extraction

    A shallow embedding of [src/services/openai.ts] (the three calls to the
    chat-completion service), of the document tracker of
    [src/components/BillsReceiptsManager.tsx] ([onDrop], [processFile],
    [deleteFile], [addTransactionsToTracker]) and of the ledger update of
    [App.tsx] ([handleAddTransactions]).

    Conventions of the embedding:
    - a JavaScript array is a [list], a string a [string];
    - an optional or possibly [undefined] value is an [option];
    - JavaScript numbers are kept abstract behind the class [JsNumber], with
      one executable instance of exact hundredths;
    - an [async] function is a value of [Async A]: the requests it handed to
      [fetch], in order, and how its promise settles (rejected with a
      [JsError] or fulfilled);
    - React state is a record, and every callback is a transition on it. *)

From Stdlib Require Import ZArith String Ascii List Lia.
From stdpp Require Import base decidable option list strings pretty.

Local Open Scope string_scope.

(** ** JavaScript values *)

(** The operations on numbers that the sources use: decimal literals with at
    most two fractional digits ([25.99] is [num_of_cents 2599]), [+],
    the conversion of template literals and [toFixed(2)]. *)
Class JsNumber (number : Type) := {
  num_of_cents : Z → number;
  num_add : number → number → number;
  num_toString : number → string;
  num_toFixed2 : number → string
}.

Module Cents.

(** Exact arithmetic in hundredths: the instance used to run the model. *)
Definition sign (c : Z) : string := if (c <? 0)%Z then "-" else EmptyString.

Definition two_digits (n : Z) : string :=
  (if (n <? 10)%Z then "0" else EmptyString) +:+ pretty n.

Definition toFixed2 (c : Z) : string :=
  sign c +:+ pretty (Z.abs c / 100)%Z +:+ "." +:+ two_digits (Z.abs c mod 100)%Z.

Definition toString (c : Z) : string :=
  let f := (Z.abs c mod 100)%Z in
  sign c +:+ pretty (Z.abs c / 100)%Z +:+
  (if (f =? 0)%Z then EmptyString
   else "." +:+ (if (f mod 10 =? 0)%Z then pretty (f / 10)%Z else two_digits f)).

#[global] Instance number : JsNumber Z := {|
  num_of_cents c := c;
  num_add := Z.add;
  num_toString := toString;
  num_toFixed2 := toFixed2
|}.

End Cents.

(** The line feed written [\n] in the sources. *)
Definition LF : string := String (ascii_of_nat 10) EmptyString.

(** Truthiness of a possibly missing string: [undefined], [null] and the empty
    string are falsy. [truthy o] is the string when there is a truthy one. *)
Definition truthy (o : option string) : option string :=
  match o with
  | Some s => if decide (s = EmptyString) then None else Some s
  | None => None
  end.

(** [Array.prototype.slice(-n)]: the elements from index [max (length - n) 0]. *)
Definition slice_last {A} (n : nat) (l : list A) : list A :=
  drop (length l - n) l.

(** [Array.prototype.map] with the index passed to the callback. *)
Definition map_with_index {A B} (f : A → nat → B) (l : list A) : list B :=
  imap (λ i a, f a i) l.

(** Values that [JSON.parse] can return. *)
#[warnings="-register-all"]
Inductive JSON {number : Type} :=
| JNull
| JBool (b : bool)
| JNumber (n : number)
| JString (s : string)
| JArray (items : list JSON)
| JObject (fields : list (string * JSON)).
Arguments JSON : clear implicits.

Definition Array_isArray {number} (j : JSON number) : bool :=
  match j with JArray _ => true | _ => false end.

(** The elements of a value that is an array. *)
Definition elements {number} (j : JSON number) : list (JSON number) :=
  match j with JArray items => items | _ => [] end.

(** ** [src/types/index.ts] *)

Inductive TransactionType := income | expense.

Module Transaction.
Record t {number : Type} := mk {
  id : string;
  date : string;
  amount : number;
  category : string;
  description : string;
  type : TransactionType
}.
Arguments t : clear implicits.
Arguments mk {number}.
End Transaction.

(** ** [src/services/openai.ts] *)

(** An element of [TransactionExtraction.transactions]. *)
Module Extracted.
Record t {number : Type} := mk {
  date : string;
  amount : number;
  category : string;
  description : string;
  type : TransactionType
}.
Arguments t : clear implicits.
Arguments mk {number}.
End Extracted.

Inductive DocumentType := receipt | bill | invoice | statement | other.

Module TransactionExtraction.
Record t {number : Type} := mk {
  transactions : list (Extracted.t number);
  analysis : string;
  confidence : number;
  isValidDocument : bool;
  documentType : DocumentType;
  rejectionReason : option string
}.
Arguments t : clear implicits.
Arguments mk {number}.
End TransactionExtraction.

Record ChatResponse := {
  message : string;
  suggestions : option (list string)
}.

(** *** Requests *)

Inductive Role := system | user.

Inductive ContentPart :=
| text_part (text : string)
| image_url_part (url : string).

Inductive Content :=
| content_text (s : string)
| content_parts (parts : list ContentPart).

Record Message := { role : Role; content : Content }.

(** The object passed to [JSON.stringify] as the body of a request. *)
Record Body {number : Type} := {
  model : string;
  messages : list Message;
  max_tokens : nat;
  temperature : number
}.
Arguments Body : clear implicits.

(** The arguments of a [fetch] call. *)
Record Request {number : Type} := {
  url : string;
  method : string;
  Authorization : string;
  Content_Type : string;
  body : Body number
}.
Arguments Request : clear implicits.

(** *** Responses *)

(** What [data.choices[0]?.message?.content] yields for a response:
    [response.json()] rejects or [data.choices] cannot be indexed (both throw
    inside the [try]), or the optional chain gives a string or [undefined]. *)
Inductive Payload :=
| payload_unreadable
| payload_content (c : option string).

Record Response := { ok : bool; status : nat; payload : Payload }.

(** The behaviour of [fetch] during one call: [None] when its promise rejects
    (the request did not complete). *)
Definition Network (number : Type) := Request number → option Response.

(** The values the service functions throw, by throw site. *)
Inductive JsError :=
| Error (msg : string)      (* [throw new Error(msg)] *)
| FetchRejected             (* [fetch] rejected *)
| PayloadUnreadable         (* [response.json()] or [data.choices[0]] threw *)
| JSONSyntaxError.          (* [JSON.parse] threw *)

(** *** Asynchronous computations *)

Module Async.
Record t {number A : Type} := mk {
  sent : list (Request number);
  settled : JsError + A
}.
Arguments t : clear implicits.
Arguments mk {number A}.

Definition ret {number A} (a : A) : t number A := mk [] (inr a).

Definition throw {number A} (e : JsError) : t number A := mk [] (inl e).

Definition bind {number A B} (m : t number A) (k : A → t number B) : t number B :=
  match settled m with
  | inl e => mk (sent m) (inl e)
  | inr a => mk (sent m ++ sent (k a)) (settled (k a))
  end.

(** [try { m } catch (error) { handler error }] *)
Definition try_catch {number A} (m : t number A) (handler : JsError → t number A)
  : t number A :=
  match settled m with
  | inl e => mk (sent m ++ sent (handler e)) (settled (handler e))
  | inr _ => m
  end.

(** [await fetch(request)] *)
Definition fetch {number} (net : Network number) (request : Request number)
  : t number Response :=
  mk [request] (match net request with Some r => inr r | None => inl FetchRejected end).

(** [(await response.json()).choices[0]?.message?.content] *)
Definition content_of {number} (response : Response) : t number (option string) :=
  match payload response with
  | payload_unreadable => throw PayloadUnreadable
  | payload_content c => ret c
  end.

(** [JSON.parse(content)], given the partial function it computes. *)
Definition parse {number A} (JSON_parse : string → option A) (content : string)
  : t number A :=
  match JSON_parse content with
  | Some v => ret v
  | None => throw JSONSyntaxError
  end.
End Async.

#[export] Instance async_ret {number} : MRet (Async.t number) :=
  λ A, Async.ret.

#[export] Instance async_bind {number} : MBind (Async.t number) :=
  λ A B k m, Async.bind m k.

Definition extraction_system_prompt : string :=
  "You are a financial assistant that analyzes and extracts transaction data from receipts, bills, invoices, and financial statements.
            
            FIRST: Determine if this is a valid financial document (receipt, bill, invoice, bank statement, etc.)
            REJECT if the image contains:
            - Non-financial content (photos, memes, random text, etc.)
            - Unreadable or corrupted images
            - Documents not related to financial transactions
            
            IF VALID: Extract ALL transactions from the document. Many receipts contain multiple items/transactions.
            
            Return a JSON object with:
            - isValidDocument: boolean (true only for receipts, bills, invoices, statements)
            - documentType: 'receipt' | 'bill' | 'invoice' | 'statement' | 'other'
            - rejectionReason: string (if isValidDocument is false, explain why)
            - transactions: array of ALL transactions found {date, amount, category, description, type}
            - analysis: detailed explanation of what you found and extracted
            - confidence: number 0-1 indicating confidence in extraction
            
            Categories should be one of: food, transportation, education, entertainment, shopping, health, utilities, rent, income, other
            Type should be 'expense' or 'income'
            Use today's date if date is unclear.
            
            For receipts with multiple items, create separate transactions for each significant item or group similar items.
            For bills, extract each line item as a separate transaction if they represent different services.".

Definition extraction_user_text : string :=
  "Please analyze this image and extract all transaction information if it is a valid financial document (receipt, bill, invoice, or statement). If it is not a financial document, reject it with an explanation.".

Definition chat_system_prompt : string :=
  "You are a helpful financial assistant specializing in explaining bills, receipts, and transactions to students. 
        You can help with:
        - Explaining charges and fees
        - Verifying if prices are reasonable
        - Breaking down complex bills
        - Suggesting better spending categories
        - Identifying potential errors or fraud
        
        Be friendly, educational, and focus on helping students understand their finances better.".

Definition insights_system_prompt : string :=
  "You are a financial advisor for students. Analyze the transaction data and provide 3-5 actionable insights.
            Focus on spending patterns, budgeting tips, and financial health for students.
            Return insights as a JSON array of strings.".

Definition completions_url : string := "https://api.openai.com/v1/chat/completions".

(** ** Data of [src/components/BillsReceiptsManager.tsx] *)

(** The fields of a DOM [File] that the component reads. *)
Module File.
Record t := mk { name : string; type : string }.
End File.

Inductive FileKind := image | pdf.

(** The status that the specification calls [rejected] is ['error'] here. *)
Inductive Status := processing | completed | error.

Module UploadedFile.
Record t {number : Type} := mk {
  id : string;
  file : File.t;
  preview : string;
  type : FileKind;
  uploadedAt : string;
  status : Status;
  extractedTransactions : list (Transaction.t number);
  aiAnalysis : option string
}.
Arguments t : clear implicits.
Arguments mk {number}.
End UploadedFile.

(** The clock as one continuation of [processFile] reads it: [Date_now k] is
    the value of the [k]-th call of [Date.now()] and [today k] is
    [new Date().toISOString().split('T')[0]] at its [k]-th evaluation. *)
Record Clock := { Date_now : nat → Z; today : nat → string }.

(** A message of the chat transcript. *)
Module ChatMessage.
Inductive sender := user | ai.
Record t := mk {
  id : string;
  type : sender;
  message : string;
  timestamp : string;
  fileId : option string
}.
End ChatMessage.

(** ** Data of [StudentDashboard.tsx] and [SetupWizard.tsx] *)

Module Goal.
Inductive kind := income | spending | budget | savings.
Record t := mk {
  id : string;
  text : string;
  category : kind;
  completed : bool;
  createdAt : string
}.
End Goal.

(** A transaction as the setup wizard holds it. The wizard declares it a
    [Transaction], but [processCSV] stores in [type] whatever text the cell of
    the file holds, so the field is a string here. *)
Module Row.
Record t {number : Type} := mk {
  id : string;
  date : string;
  amount : number;
  category : string;
  description : string;
  type : string
}.
Arguments t : clear implicits.
Arguments mk {number}.
End Row.

(** The form of the wizard ([currentTransaction]). *)
Module Form.
Record t := mk {
  date : string;
  amount : string;
  category : string;
  description : string;
  type : TransactionType
}.
End Form.

Module Wizard.
(** The state of [SetupWizard], and the number of files that [processCSV] has
    handed to a [FileReader] and that are not read yet. *)
Record t {number : Type} := mk {
  currentStep : nat;
  transactions : list (Row.t number);
  uploadedFile : option File.t;
  currentTransaction : Form.t;
  reading : nat
}.
Arguments t : clear implicits.
Arguments mk {number}.
End Wizard.

(** [String.prototype.split] for a separator of one character: the pieces
    between the separators, one piece for a string without separator. *)
Fixpoint split_on (sep : ascii) (s : string) : list string :=
  match s with
  | EmptyString => [ EmptyString ]
  | String c rest =>
    if decide (c = sep) then EmptyString :: split_on sep rest
    else match split_on sep rest with
         | piece :: pieces => String c piece :: pieces
         | [] => [ String c EmptyString ]
         end
  end.

(** [Array.prototype.indexOf], with [None] for [-1]. *)
Fixpoint indexOf (x : string) (l : list string) : option nat :=
  match l with
  | [] => None
  | y :: l => if decide (y = x) then Some 0 else S <$> indexOf x l
  end.

(** ** Concrete inputs

    Values on which the model is run: a clock, two uploads, replies of the
    service and the restriction of [JSON.parse] and [JSON.stringify] to them,
    with numbers in exact hundredths. *)
Module Sample.

Definition clk : Clock :=
  {| Date_now := λ k, (1762128000000 + Z.of_nat k)%Z;
     today := λ _, "2026-11-03" |}.

Definition photo : File.t := File.mk "holiday.png" "image/png".
Definition photo_url : string := "data:image/png;base64,iVBORw0KGgo=".

Definition photo_id : string := "1762128000000k3x9q2m7p".
Definition uploaded_at : string := "2026-11-03T00:00:00.000Z".

Definition scan : File.t := File.mk "rent.pdf" "application/pdf".
Definition scan_url : string := "data:application/pdf;base64,JVBERi0=".

(** A rejection that nevertheless carries a transaction. *)
Definition unrelated_photo : TransactionExtraction.t Z :=
  TransactionExtraction.mk
    [ Extracted.mk "2026-11-01" 1999%Z "other" "Poster" expense ]
    "A beach at sunset." 95%Z false other (Some "not a financial document").

(** A receipt with two line items, 12.50 and 3.00. *)
Definition lunch_receipt : TransactionExtraction.t Z :=
  TransactionExtraction.mk
    [ Extracted.mk "2026-11-02" 1250%Z "food" "Sandwich" expense;
      Extracted.mk "2026-11-02" 300%Z "food" "Coffee" expense ]
    "A cafe receipt with two items." 90%Z true receipt None.

(** [JSON.parse] on the replies used below: the text named [rejection]
    decodes to [unrelated_photo], the text named [receipt_json] to
    [lunch_receipt], and anything else is taken not to be JSON. *)
Definition JSON_parse_extraction (content : string) : option (TransactionExtraction.t Z) :=
  if decide (content = "rejection") then Some unrelated_photo
  else if decide (content = "receipt_json") then Some lunch_receipt
  else None.

(** [JSON.parse] on the texts [[1]] and [null]; anything else is taken not to
    be JSON. *)
Definition JSON_parse (content : string) : option (JSON Z) :=
  if decide (content = "[1]") then Some (JArray [ JNumber 100%Z ])
  else if decide (content = "null") then Some JNull
  else None.

Definition quoted (s : string) : string :=
  String (ascii_of_nat 34) (s +:+ String (ascii_of_nat 34) EmptyString).

Definition member (key value : string) : string := quoted key +:+ ":" +:+ value.

(** [JSON.stringify] on transactions whose strings need no escaping. *)
Definition stringify_transaction (t : Transaction.t Z) : string :=
  "{" +:+ member "id" (quoted (Transaction.id t)) +:+ "," +:+
  member "date" (quoted (Transaction.date t)) +:+ "," +:+
  member "amount" (Cents.toString (Transaction.amount t)) +:+ "," +:+
  member "category" (quoted (Transaction.category t)) +:+ "," +:+
  member "description" (quoted (Transaction.description t)) +:+ "," +:+
  member "type"
    (quoted (match Transaction.type t with income => "income" | expense => "expense" end))
  +:+ "}".

Definition JSON_stringify (l : list (Transaction.t Z)) : string :=
  "[" +:+ String.concat "," (stringify_transaction <$> l) +:+ "]".

Definition replying (content : string) : Network Z :=
  λ _, Some {| ok := true; status := 200; payload := payload_content (Some content) |}.

Definition refusing (code : nat) : Network Z :=
  λ _, Some {| ok := false; status := code; payload := payload_unreadable |}.

Definition unreachable : Network Z := λ _, None.

Definition key : option string := Some "sk-test".

(** The [n] purchases numbered [0] to [n - 1], oldest first. *)
Definition purchase (i : nat) : Transaction.t Z :=
  Transaction.mk (pretty i) "2026-10-01" (Z.of_nat i * 100)%Z "food"
    ("purchase " +:+ pretty i) expense.

Definition ledger (n : nat) : list (Transaction.t Z) := purchase <$> seq 0 n.

(** [trim] and [toLowerCase] on ASCII text. *)
Definition is_space (c : ascii) : bool :=
  let n := nat_of_ascii c in
  bool_decide (n = 32 ∨ (9 ≤ n ∧ n ≤ 13))%nat.

Fixpoint trim_start (s : string) : string :=
  match s with
  | String c rest => if is_space c then trim_start rest else s
  | EmptyString => EmptyString
  end.

Definition String_trim (s : string) : string :=
  String.rev (trim_start (String.rev (trim_start s))).

Definition lower (c : ascii) : ascii :=
  let n := nat_of_ascii c in
  if bool_decide (65 ≤ n ∧ n ≤ 90)%nat then ascii_of_nat (n + 32) else c.

Fixpoint String_toLowerCase (s : string) : string :=
  match s with
  | String c rest => String (lower c) (String_toLowerCase rest)
  | EmptyString => EmptyString
  end.

(** [parseFloat] on the numerals used below, in hundredths; no other text is
    given to it. *)
Definition parseFloat (s : string) : Z :=
  if decide (s = "12.50") then 1250
  else if decide (s = "3") then 300
  else if decide (s = "-4") then (-400)
  else 0.

Definition num_positive (n : Z) : bool := bool_decide (0 < n)%Z.

(** A file of four data lines: a purchase, a refund with a negative amount, a
    line of two fields, and a purchase without category and type. *)
Definition csv_text : string :=
  "Date, Amount ,CATEGORY,Description,Type" +:+ LF +:+
  "2026-10-01,12.50,food,Lunch,expense" +:+ LF +:+
  "2026-10-02,-4,food,Refund,expense" +:+ LF +:+
  "notes,none" +:+ LF +:+
  "2026-10-03,3,,Coffee,".

Definition line_clock (i : nat) : Z := (1762128000000 + Z.of_nat i)%Z.
Definition line_day (i : nat) : string := "2026-11-03".

Definition five_rows : list (Row.t Z) :=
  (λ i, Row.mk (pretty i) "2026-10-01" (Z.of_nat (S i) * 100)%Z "food" "Lunch" "expense")
    <$> seq 0 5.


Definition scan_id : string := "1762128000000a1b2c3d4e".

(** A file whose header names neither a category nor a type. *)
Definition csv_plain : string :=
  "date,amount,description,shop" +:+ LF +:+
  "2026-10-01,12.50,Lunch,Cafe".

Definition lunch_form : Form.t := Form.mk "2026-10-01" "12.50" "food" "Lunch" expense.

End Sample.

Section FinanceTracker.

Context {number : Type} `{JsNumber number}.

Local Abbreviation Transaction := (Transaction.t number).
Local Abbreviation UploadedFile := (UploadedFile.t number).
Local Abbreviation Extraction := (TransactionExtraction.t number).

(** [import.meta.env.VITE_OPENAI_API_KEY], read once when the module loads. *)
Variable OPENAI_API_KEY : option string.

(** [JSON.parse], at the type the caller gives to its result: the declared
    return type [TransactionExtraction] in [extractTransactionsFromImage], and
    [any] in [generateFinancialInsights]. [None] when it throws. *)
Variable JSON_parse_extraction : string → option Extraction.
Variable JSON_parse : string → option (JSON number).

(** [JSON.stringify] of an array of transactions. *)
Variable JSON_stringify : list Transaction → string.

Definition bearer : string :=
  "Bearer " +:+ default "undefined" OPENAI_API_KEY.

Definition post (b : Body number) : Request number :=
  {| url := completions_url;
     method := "POST";
     Authorization := bearer;
     Content_Type := "application/json";
     body := b |}.

Definition api_error (response : Response) : JsError :=
  Error ("OpenAI API error: " +:+ pretty (status response)).

Definition extraction_request (imageData : string) : Request number :=
  post {| model := "gpt-4-turbo";
          messages :=
            [ {| role := system; content := content_text extraction_system_prompt |};
              {| role := user;
                 content := content_parts
                   [ text_part extraction_user_text; image_url_part imageData ] |} ];
          max_tokens := 1000;
          temperature := num_of_cents 10 |}.

Definition extractTransactionsFromImage (net : Network number) (imageData : string)
  : Async.t number Extraction :=
  match truthy OPENAI_API_KEY with
  | None => Async.throw (Error "OpenAI API key not configured")
  | Some _ =>
    Async.try_catch
      (response ← Async.fetch net (extraction_request imageData);
       if negb (ok response) then Async.throw (api_error response) else
       content ← Async.content_of response;
       match truthy content with
       | None => Async.throw (Error "No response from OpenAI")
       | Some content => Async.parse JSON_parse_extraction content
       end)
      (λ error, Async.throw error)
  end.

(** The line of the transaction summary for one transaction. *)
Definition summary_line (t : Transaction.t number) : string :=
  Transaction.date t +:+ ": " +:+
  (match Transaction.type t with income => "+" | expense => "-" end) +:+
  "$" +:+ num_toString (Transaction.amount t) +:+ " - " +:+
  Transaction.description t +:+ " (" +:+ Transaction.category t +:+ ")".

Definition transactionSummary (transactions : list Transaction) : string :=
  String.concat LF (summary_line <$> slice_last 50 transactions).

Definition history_message (transactions : list Transaction) : Message :=
  {| role := system;
     content := content_text
       ("Here is the user's recent transaction history for context:" +:+ LF +:+
        transactionSummary transactions +:+ LF +:+ LF +:+
        "Use this information to provide personalized insights and answer questions about their spending patterns, budgets, and financial habits.") |}.

Definition context_message (context : string) : Message :=
  {| role := system;
     content := content_text ("Context about the current receipt/bill: " +:+ context) |}.

Definition userMessage (message : string) (imageData : option string) : Message :=
  {| role := user;
     content :=
       match truthy imageData with
       | Some imageData => content_parts [ text_part message; image_url_part imageData ]
       | None => content_text message
       end |}.

(** The [messages] array of [chatAboutReceipt] when the request is built. *)
Definition chat_messages (message : string) (imageData context : option string)
    (transactions : option (list Transaction)) : list Message :=
  [ {| role := system; content := content_text chat_system_prompt |} ]
  ++ match transactions with
     | Some (t :: ts) => [ history_message (t :: ts) ]
     | _ => []
     end
  ++ match truthy context with
     | Some context => [ context_message context ]
     | None => []
     end
  ++ [ userMessage message imageData ].

Definition chat_request (message : string) (imageData context : option string)
    (transactions : option (list Transaction)) : Request number :=
  post {| model := "gpt-4-turbo";
          messages := chat_messages message imageData context transactions;
          max_tokens := 500;
          temperature := num_of_cents 70 |}.

Definition chatAboutReceipt (net : Network number) (message : string)
    (imageData context : option string)
    (transactions : option (list Transaction))
  : Async.t number ChatResponse :=
  match truthy OPENAI_API_KEY with
  | None => Async.throw (Error "OpenAI API key not configured")
  | Some _ =>
    Async.try_catch
      (response ← Async.fetch net (chat_request message imageData context transactions);
       if negb (ok response) then Async.throw (api_error response) else
       content ← Async.content_of response;
       match truthy content with
       | None => Async.throw (Error "No response from OpenAI")
       | Some content =>
         Async.ret {| message := content; suggestions := Some [] |}
       end)
      (λ error, Async.throw error)
  end.

Definition insights_request (transactions : list Transaction) : Request number :=
  post {| model := "gpt-4-turbo";
          messages :=
            [ {| role := system; content := content_text insights_system_prompt |};
              {| role := user;
                 content := content_text
                   ("Analyze these transactions and provide insights: " +:+
                    JSON_stringify (slice_last 20 transactions)) |} ];
          max_tokens := 400;
          temperature := num_of_cents 30 |}.

(** Declared to return [string[]]; at run time the array is whatever
    [JSON.parse] produced, so the elements are [JSON] values. *)
Definition generateFinancialInsights (net : Network number)
    (transactions : list Transaction)
  : Async.t number (list (JSON number)) :=
  match truthy OPENAI_API_KEY, transactions with
  | None, _ | _, [] => Async.ret []
  | Some _, _ :: _ =>
    Async.try_catch
      (response ← Async.fetch net (insights_request transactions);
       if negb (ok response) then Async.throw (api_error response) else
       content ← Async.content_of response;
       match truthy content with
       | None => Async.ret []
       | Some content =>
         insights ← Async.parse JSON_parse content;
         Async.ret (if Array_isArray insights then elements insights else [])
       end)
      (λ error, Async.ret [])
  end.

(** ** [src/components/BillsReceiptsManager.tsx] and [App.tsx] *)

(** The state of the component ([useState] cells that the modelled callbacks
    touch), the ledger held by [App], and the calls of [processFile] that are
    suspended at [await extractTransactionsFromImage(file.preview)], each with
    the [file] it closed over. *)
Record State := {
  uploadedFiles : list UploadedFile;
  selectedFile : option UploadedFile;
  isProcessing : bool;
  transactions : list Transaction;
  awaiting : list UploadedFile
}.

Definition has_id (fileId : string) (f : UploadedFile) : bool :=
  bool_decide (UploadedFile.id f = fileId).

(** [prev.map(f => f.id === file.id ? change f : f)] *)
Definition update_by_id (fileId : string) (change : UploadedFile → UploadedFile)
    (prev : list UploadedFile) : list UploadedFile :=
  (λ f, if has_id fileId f then change f else f) <$> prev.

Definition default_rejection : string :=
  "This does not appear to be a valid receipt, bill, or financial document.".

(** [{ ...f, status: 'error', aiAnalysis: `Document rejected: ${...}` }] *)
Definition rejected (result : Extraction) (f : UploadedFile) : UploadedFile :=
  UploadedFile.mk (UploadedFile.id f) (UploadedFile.file f) (UploadedFile.preview f)
    (UploadedFile.type f) (UploadedFile.uploadedAt f)
    error
    (UploadedFile.extractedTransactions f)
    (Some ("Document rejected: " +:+
           default default_rejection
             (truthy (TransactionExtraction.rejectionReason result)))).

(** [{ ...f, status: 'completed', extractedTransactions, aiAnalysis }] *)
Definition finished (extractedTransactions : list Transaction) (analysis : string)
    (f : UploadedFile) : UploadedFile :=
  UploadedFile.mk (UploadedFile.id f) (UploadedFile.file f) (UploadedFile.preview f)
    (UploadedFile.type f) (UploadedFile.uploadedAt f)
    completed
    extractedTransactions
    (Some analysis).

Definition extracted (clk : Clock) (result : Extraction) : list Transaction :=
  map_with_index
    (λ t index,
       Transaction.mk (pretty (Date_now clk index) +:+ pretty index)
         (Extracted.date t) (Extracted.amount t) (Extracted.category t)
         (Extracted.description t) (Extracted.type t))
    (TransactionExtraction.transactions result).

Definition mockTransactions (clk : Clock) : list Transaction :=
  [ Transaction.mk (pretty (Date_now clk 0)) (today clk 0) (num_of_cents 2599)
      "food" "Grocery items from receipt" expense;
    Transaction.mk (pretty (Date_now clk 1 + 1)%Z) (today clk 1) (num_of_cents 350)
      "food" "Beverage from receipt" expense ].

Definition mockAnalysis (clk : Clock) (file : UploadedFile) : string :=
  "I've analyzed your " +:+
  (match UploadedFile.type file with image => "receipt" | pdf => "bill" end) +:+
  " and found " +:+ pretty (length (mockTransactions clk)) +:+
  " transactions. The total amount is $" +:+
  num_toFixed2
    (foldl (λ sum t, num_add sum (Transaction.amount t)) (num_of_cents 0)
       (mockTransactions clk)) +:+
  ". This appears to be a valid financial document with multiple line items extracted as separate transactions.".

(** The updater that [processFile file] passes to [setUploadedFiles] once
    [extractTransactionsFromImage] has settled with [outcome]: the code after
    the [await] for a fulfilled promise, the [catch] block for a rejected one. *)
Definition processFile_update (clk : Clock) (file : UploadedFile)
    (outcome : JsError + Extraction) (prev : list UploadedFile) : list UploadedFile :=
  match outcome with
  | inr result =>
    if negb (TransactionExtraction.isValidDocument result) then
      update_by_id (UploadedFile.id file) (rejected result) prev
    else
      update_by_id (UploadedFile.id file)
        (finished (extracted clk result) (TransactionExtraction.analysis result)) prev
  | inl _ =>
    update_by_id (UploadedFile.id file)
      (finished (mockTransactions clk) (mockAnalysis clk file)) prev
  end.

(** [processFile], up to its [await]. *)
Definition processFile_call (file : UploadedFile) (s : State) : State :=
  {| uploadedFiles := uploadedFiles s;
     selectedFile := selectedFile s;
     isProcessing := true;
     transactions := transactions s;
     awaiting := awaiting s ++ [file] |}.

(** [processFile], from its [await] to the end of [finally]. *)
Definition processFile_resume (net : Network number) (clk : Clock)
    (file : UploadedFile) (s : State) : State :=
  let outcome :=
    Async.settled
      (extractTransactionsFromImage net (UploadedFile.preview file)) in
  {| uploadedFiles := processFile_update clk file outcome (uploadedFiles s);
     selectedFile := selectedFile s;
     isProcessing := false;
     transactions := transactions s;
     awaiting := filter (λ p, UploadedFile.id p ≠ UploadedFile.id file) (awaiting s) |}.

(** The [reader.onload] callback of [onDrop] for one file: [result] is
    [reader.result], [id] the string built from [Date.now()] and
    [Math.random()], [now] is [new Date().toISOString()]. *)
Definition newFile (file : File.t) (result id now : string) : UploadedFile :=
  UploadedFile.mk id file result
    (if String.prefix "image/" (File.type file) then image else pdf)
    now processing [] None.

Definition onDrop_onload (file : File.t) (result id now : string) (s : State) : State :=
  processFile_call (newFile file result id now)
    {| uploadedFiles := uploadedFiles s ++ [newFile file result id now];
       selectedFile := selectedFile s;
       isProcessing := isProcessing s;
       transactions := transactions s;
       awaiting := awaiting s |}.

Definition deleteFile (fileId : string) (s : State) : State :=
  {| uploadedFiles := filter (λ f, UploadedFile.id f ≠ fileId) (uploadedFiles s);
     selectedFile :=
       match selectedFile s with
       | Some f => if has_id fileId f then None else Some f
       | None => None
       end;
     isProcessing := isProcessing s;
     transactions := transactions s;
     awaiting := awaiting s |}.

(** [App.handleAddTransactions]: [setTransactions(prev => [...prev, ...newTransactions])] *)
Definition handleAddTransactions (newTransactions prev : list Transaction)
  : list Transaction :=
  prev ++ newTransactions.

Definition addTransactionsToTracker (newTransactions : list Transaction) (s : State)
  : State :=
  {| uploadedFiles := uploadedFiles s;
     selectedFile := selectedFile s;
     isProcessing := isProcessing s;
     transactions := handleAddTransactions newTransactions (transactions s);
     awaiting := awaiting s |}.

(** [setSelectedFile(uploadedFiles.find(f => f.id === fileId) || null)], the
    handler of the file selector of the chat; the chat buttons of a listed
    file call [setSelectedFile(file)], which is the same when ids are distinct. *)
Definition selectFile (fileId : string) (s : State) : State :=
  {| uploadedFiles := uploadedFiles s;
     selectedFile := List.find (has_id fileId) (uploadedFiles s);
     isProcessing := isProcessing s;
     transactions := transactions s;
     awaiting := awaiting s |}.

(** What can happen to the component. *)
Inductive Event :=
| FileRead (file : File.t) (result id now : string)
| ExtractionSettled (fileId : string) (net : Network number) (clk : Clock)
| DeleteClicked (fileId : string)
| FileSelected (fileId : string)
| AddToTrackerClicked (fileId : string).

Definition ids (l : list UploadedFile) : list string := UploadedFile.id <$> l.

(** One transition. An event that cannot occur in the state gives [None]:
    the settling of a call that is not suspended, a click on a button of a
    file that is not listed, and the reading of a file whose generated [id] is
    the one of a listed file or of a suspended call (the ids, made of the time
    and of nine random characters, are assumed not to collide). *)
Definition step (s : State) (e : Event) : option State :=
  match e with
  | FileRead file result id now =>
    if decide (id ∈ (ids (uploadedFiles s) ++ ids (awaiting s))%list) then None
    else Some (onDrop_onload file result id now s)
  | ExtractionSettled fileId net clk =>
    file ← List.find (has_id fileId) (awaiting s);
    Some (processFile_resume net clk file s)
  | DeleteClicked fileId =>
    _ ← List.find (has_id fileId) (uploadedFiles s);
    Some (deleteFile fileId s)
  | FileSelected fileId =>
    Some (selectFile fileId s)
  | AddToTrackerClicked fileId =>
    file ← List.find (has_id fileId) (uploadedFiles s);
    Some (addTransactionsToTracker (UploadedFile.extractedTransactions file) s)
  end.

Definition run (s : State) (events : list Event) : option State :=
  foldl (λ o e, s ← o; step s e) (Some s) events.

(** The component when it mounts, with the ledger it receives from [App]. *)
Definition mounted (ledger : list Transaction) : State :=
  {| uploadedFiles := [];
     selectedFile := None;
     isProcessing := false;
     transactions := ledger;
     awaiting := [] |}.


(** ** The chat of [BillsReceiptsManager.tsx] *)

(** [String.prototype.trim] *)
Variable String_trim : string → string.

Record Chat := {
  chatMessages : list ChatMessage.t;
  currentMessage : string
}.

(** What one call of [sendMessage] reads from its environment: [Date.now()]
    and [new Date().toISOString()] when the message is sent and when the
    reply is handled, and the value of
    [Math.floor(Math.random() * aiResponses.length)], which is below the
    length because [Math.random()] is below one. *)
Record Readings := {
  asked_now : Z;
  asked_at : string;
  answered_now : Z;
  answered_at : string;
  random_index : nat
}.

Definition aiResponses : list string :=
  [ "Based on your receipt, this appears to be a legitimate purchase. The pricing is consistent with current market rates for these items.";
    "I can see this is a grocery receipt. The total seems reasonable for the items listed. Would you like me to break down the categories?";
    "This bill shows your monthly utilities. The charges appear normal compared to seasonal averages. The breakdown includes base rate, usage, and taxes.";
    "Looking at this receipt, I notice a few items that might be categorized differently. Would you like me to suggest better categories for budgeting?";
    "The transaction amounts on this receipt are all within normal ranges. I can help you set up automatic categorization for similar purchases." ].

(** The [userMessage] of [sendMessage]. *)
Definition asked (r : Readings) (selectedFile : option UploadedFile) (c : Chat)
  : ChatMessage.t :=
  ChatMessage.mk (pretty (asked_now r)) ChatMessage.user (currentMessage c)
    (asked_at r) (UploadedFile.id <$> selectedFile).

(** The [aiMessage] of [sendMessage], in the [try] and in the [catch]. *)
Definition answered (r : Readings) (selectedFile : option UploadedFile)
    (outcome : JsError + ChatResponse) : ChatMessage.t :=
  ChatMessage.mk (pretty (answered_now r + 1)%Z) ChatMessage.ai
    (match outcome with
     | inr response => message response
     | inl _ => default EmptyString (aiResponses !! random_index r)
     end)
    (answered_at r) (UploadedFile.id <$> selectedFile).

(** [sendMessage] up to its [await]: [None] when it returns at once. *)
Definition sendMessage_call (r : Readings) (selectedFile : option UploadedFile)
    (c : Chat) : option Chat :=
  match truthy (Some (String_trim (currentMessage c))) with
  | None => None
  | Some _ =>
    Some {| chatMessages := chatMessages c ++ [ asked r selectedFile c ];
            currentMessage := EmptyString |}
  end.

(** The call that [sendMessage] awaits, with the message, the selection and
    the ledger of the render in which it was called. *)
Definition sendMessage_request (net : Network number)
    (selectedFile : option UploadedFile) (transactions : list Transaction) (c : Chat)
  : Async.t number ChatResponse :=
  chatAboutReceipt net (currentMessage c)
    (UploadedFile.preview <$> selectedFile)
    (selectedFile ≫= UploadedFile.aiAnalysis)
    (Some transactions).

(** [sendMessage] from its [await] on, in the state the chat has by then. *)
Definition sendMessage_resume (r : Readings) (selectedFile : option UploadedFile)
    (outcome : JsError + ChatResponse) (c : Chat) : Chat :=
  {| chatMessages := chatMessages c ++ [ answered r selectedFile outcome ];
     currentMessage := currentMessage c |}.

(** A whole call of [sendMessage] with nothing else happening meanwhile: the
    requests it sends and the chat it leaves. *)
Definition sendMessage (net : Network number) (r : Readings)
    (selectedFile : option UploadedFile) (transactions : list Transaction) (c : Chat)
  : list (Request number) * Chat :=
  match sendMessage_call r selectedFile c with
  | None => ([], c)
  | Some c' =>
    let call := sendMessage_request net selectedFile transactions c in
    (Async.sent call, sendMessage_resume r selectedFile (Async.settled call) c')
  end.

(** ** [StudentDashboard.tsx] *)

Record Advice := {
  aiInsights : list (JSON number);
  isLoadingInsights : bool
}.

(** The effect that runs when the ledger changes: the requests it sends and
    the state it leaves. *)
Definition loadAiInsights (net : Network number) (transactions : list Transaction)
    (d : Advice) : list (Request number) * Advice :=
  if decide (length transactions < 5)%nat then ([], d)
  else
    let call := generateFinancialInsights net transactions in
    (Async.sent call,
     {| aiInsights :=
          match Async.settled call with
          | inr insights => insights
          | inl _ => aiInsights d
          end;
        isLoadingInsights := false |}).

Record Goals := {
  goals : list Goal.t;
  newGoal : string;
  goalCategory : Goal.kind
}.

Definition addGoal (now : Z) (createdAt : string) (g : Goals) : Goals :=
  match truthy (Some (String_trim (newGoal g))) with
  | None => g
  | Some text =>
    {| goals := goals g ++
                [ Goal.mk (pretty now) text (goalCategory g) false createdAt ];
       newGoal := EmptyString;
       goalCategory := goalCategory g |}
  end.

Definition toggleGoal (goalId : string) (prev : list Goal.t) : list Goal.t :=
  (λ goal,
     if decide (Goal.id goal = goalId)
     then Goal.mk (Goal.id goal) (Goal.text goal) (Goal.category goal)
            (negb (Goal.completed goal)) (Goal.createdAt goal)
     else goal) <$> prev.

Definition deleteGoal (goalId : string) (prev : list Goal.t) : list Goal.t :=
  filter (λ goal, Goal.id goal ≠ goalId) prev.

(** ** [SetupWizard.tsx] *)

(** [String.prototype.toLowerCase], [parseFloat], and the test [n > 0] on
    numbers (false for [NaN]). *)
Variable String_toLowerCase : string → string.
Variable parseFloat : string → number.
Variable num_positive : number → bool.

Local Abbreviation Row := (Row.t number).
Local Abbreviation Wizard := (Wizard.t number).

(** The [component] of each entry of [steps]. *)
Definition steps : list string := [ "welcome"; "transactions"; "complete" ].

(** [values[headers.indexOf(name)]] when it is a truthy string. *)
Definition cell (headers values : list string) (name : string) : option string :=
  truthy (indexOf name headers ≫= λ i, values !! i).

Definition csv_headers (lines : list string) : list string :=
  (λ h, String_toLowerCase (String_trim h))
    <$> split_on "," (default EmptyString (head lines)).

(** The body of the loop of [processCSV] for line [i]: the transaction it
    pushes, if any. [now i] and [today i] are [Date.now()] and the date of
    [new Date()] as read while the line is handled. *)
Definition csv_row (headers : list string) (now : nat → Z) (today : nat → string)
    (i : nat) (line : string) : option Row :=
  let values := split_on "," line in
  if decide (4 ≤ length values)%nat then
    let transaction :=
      Row.mk (pretty (now i) +:+ pretty i)
        (default (today i) (cell headers values "date"))
        (parseFloat (default "0" (cell headers values "amount")))
        (default "other" (cell headers values "category"))
        (default "Imported transaction" (cell headers values "description"))
        (default "expense" (cell headers values "type")) in
    if num_positive (Row.amount transaction) then Some transaction else None
  else None.

(** The [csvTransactions] that [reader.onload] builds from the text. *)
Definition csvTransactions (now : nat → Z) (today : nat → string) (text : string)
  : list Row :=
  let lines := split_on (ascii_of_nat 10) text in
  omap (λ row, row) (imap (λ k, csv_row (csv_headers lines) now today (S k)) (tail lines)).

Definition blank_form (today : string) : Form.t :=
  Form.mk today EmptyString EmptyString EmptyString expense.

Definition wizard_mounted (today : string) : Wizard :=
  Wizard.mk 0 [] None (blank_form today) 0.

(** [onDrop] of the wizard: [setUploadedFile(acceptedFiles[0])]. *)
Definition wizard_onDrop (acceptedFiles : list File.t) (w : Wizard) : Wizard :=
  Wizard.mk (Wizard.currentStep w) (Wizard.transactions w) (head acceptedFiles)
    (Wizard.currentTransaction w) (Wizard.reading w).

(** [processCSV] up to [reader.readAsText]. *)
Definition processCSV (w : Wizard) : Wizard :=
  match Wizard.uploadedFile w with
  | None => w
  | Some _ =>
    Wizard.mk (Wizard.currentStep w) (Wizard.transactions w) (Wizard.uploadedFile w)
      (Wizard.currentTransaction w) (S (Wizard.reading w))
  end.

(** The [reader.onload] callback of [processCSV]. *)
Definition processCSV_onload (now : nat → Z) (today : nat → string) (text : string)
    (w : Wizard) : Wizard :=
  Wizard.mk (Wizard.currentStep w)
    (Wizard.transactions w ++ csvTransactions now today text)
    None (Wizard.currentTransaction w) (pred (Wizard.reading w)).

Definition addTransaction (now : Z) (today : string) (w : Wizard) : Wizard :=
  let form := Wizard.currentTransaction w in
  match truthy (Some (Form.amount form)), truthy (Some (Form.category form)),
        truthy (Some (Form.description form)) with
  | Some amount, Some category, Some description =>
    Wizard.mk (Wizard.currentStep w)
      (Wizard.transactions w ++
       [ Row.mk (pretty now) (Form.date form) (parseFloat amount) category description
           (match Form.type form with income => "income" | expense => "expense" end) ])
      (Wizard.uploadedFile w) (blank_form today) (Wizard.reading w)
  | _, _, _ => w
  end.

Definition removeTransaction (id : string) (w : Wizard) : Wizard :=
  Wizard.mk (Wizard.currentStep w)
    (filter (λ t, Row.id t ≠ id) (Wizard.transactions w))
    (Wizard.uploadedFile w) (Wizard.currentTransaction w) (Wizard.reading w).

Definition canProceed (w : Wizard) : bool :=
  if decide (Wizard.currentStep w = 1)
  then bool_decide (5 ≤ length (Wizard.transactions w))%nat
  else true.

(** [nextStep]: the state it leaves and the argument of [onComplete] when it
    calls it. *)
Definition nextStep (w : Wizard) : Wizard * option (list Row) :=
  if decide (Wizard.currentStep w < length steps - 1)%nat then
    (Wizard.mk (Wizard.currentStep w + 1) (Wizard.transactions w)
       (Wizard.uploadedFile w) (Wizard.currentTransaction w) (Wizard.reading w),
     None)
  else (w, Some (Wizard.transactions w)).

Definition prevStep (w : Wizard) : Wizard :=
  if decide (0 < Wizard.currentStep w)%nat then
    Wizard.mk (Wizard.currentStep w - 1) (Wizard.transactions w)
      (Wizard.uploadedFile w) (Wizard.currentTransaction w) (Wizard.reading w)
  else w.

Definition editForm (form : Form.t) (w : Wizard) : Wizard :=
  Wizard.mk (Wizard.currentStep w) (Wizard.transactions w) (Wizard.uploadedFile w)
    form (Wizard.reading w).

(** What can happen to the wizard. *)
Inductive WizardEvent :=
| ContinueClicked
| BackClicked
| FormEdited (form : Form.t)
| AddClicked (now : Z) (today : string)
| RemoveClicked (id : string)
| FilesDropped (acceptedFiles : list File.t)
| ProcessClicked
| FileLoaded (now : nat → Z) (today : nat → string) (text : string).

(** One transition, with the argument of [onComplete] when it is called.
    [None] for what the page does not allow: the buttons Continue and Back
    while they are disabled, the controls of the transactions step on another
    step, and the end of a read that was not started. *)
Definition wizard_step (w : Wizard) (e : WizardEvent)
  : option (Wizard * option (list Row)) :=
  let on_transactions_step (w' : Wizard) :=
    if decide (Wizard.currentStep w = 1) then Some (w', None) else None in
  match e with
  | ContinueClicked => if canProceed w then Some (nextStep w) else None
  | BackClicked =>
    if decide (Wizard.currentStep w = 0) then None else Some (prevStep w, None)
  | FormEdited form => on_transactions_step (editForm form w)
  | AddClicked now today => on_transactions_step (addTransaction now today w)
  | RemoveClicked id => on_transactions_step (removeTransaction id w)
  | FilesDropped acceptedFiles => on_transactions_step (wizard_onDrop acceptedFiles w)
  | ProcessClicked => on_transactions_step (processCSV w)
  | FileLoaded now today text =>
    if decide (Wizard.reading w = 0) then None
    else Some (processCSV_onload now today text w, None)
  end.

(** A run of the wizard: its last state and the arguments of the calls of
    [onComplete], in order. *)
Fixpoint wizard_run (w : Wizard) (events : list WizardEvent)
  : option (Wizard * list (list Row)) :=
  match events with
  | [] => Some (w, [])
  | e :: events =>
    '(w', handed) ← wizard_step w e;
    '(w'', later) ← wizard_run w' events;
    Some (w'', (option_list handed ++ later)%list)
  end.

(** ** Notions of the specification *)

(** "The most recent [n] transactions, by position": the last [n] of the list. *)
Definition most_recent {A} (n : nat) (l : list A) : list A :=
  reverse (take n (reverse l)).

(** The ways the Extraction Client can fail (specification, 4.1 and 7):
    no credential; the call does not complete or completes with a status that
    is not a success; the payload cannot be decoded. *)
Inductive Failure := ServiceUnavailable | TransportError | MalformedResponse.

(** The failure that the environment causes for [extract(imageData)], or
    [None] when the service answers with a payload that decodes. *)
Definition extraction_failure (net : Network number) (imageData : string)
  : option Failure :=
  match truthy OPENAI_API_KEY with
  | None => Some ServiceUnavailable
  | Some _ =>
    match net (extraction_request imageData) with
    | None => Some TransportError
    | Some response =>
      if ok response then
        match payload response with
        | payload_unreadable => Some MalformedResponse
        | payload_content c =>
          match truthy c ≫= JSON_parse_extraction with
          | None => Some MalformedResponse
          | Some _ => None
          end
        end
      else Some TransportError
    end
  end.

(** The strings of a response that parses as a JSON array of strings. *)
Definition JSON_strings (content : string) : option (list string) :=
  match JSON_parse content with
  | Some (JArray items) =>
    mapM (λ j, match j with JString s => Some s | _ => None end) items
  | _ => None
  end.

(** The items of a response that parses as a JSON array. *)
Definition JSON_items (content : string) : option (list (JSON number)) :=
  match JSON_parse content with
  | Some (JArray items) => Some items
  | _ => None
  end.

(** The text that a call to the service brings back: [None] when the call does
    not complete, has a failure status, has an unreadable body or no text. *)
Definition reply (net : Network number) (request : Request number) : option string :=
  match net request with
  | Some response =>
    if ok response then
      match payload response with
      | payload_content c => truthy c
      | payload_unreadable => None
      end
    else None
  | None => None
  end.

(** What holds of every state the component can reach: a file whose
    extraction is still awaited is listed, if at all, exactly as [onDrop]
    created it. *)
Record consistent (s : State) : Prop := {
  awaited_untouched :
    ∀ p f, p ∈ awaiting s → f ∈ uploadedFiles s →
           UploadedFile.id f = UploadedFile.id p → f = p;
  awaited_fresh :
    ∀ p, p ∈ awaiting s →
         UploadedFile.status p = processing ∧
         UploadedFile.extractedTransactions p = [] ∧
         UploadedFile.aiAnalysis p = None;
  listed_once : NoDup (ids (uploadedFiles s))
}.

(** * Properties *)

(** ** The extraction call *)

Lemma extraction_without_credential net imageData :
  truthy OPENAI_API_KEY = None →
  extractTransactionsFromImage net imageData
  = Async.mk [] (inl (Error "OpenAI API key not configured")).
Proof. intros Hkey. unfold extractTransactionsFromImage. by rewrite Hkey. Qed.

(** The environment makes the call fail exactly when the promise rejects. *)
Lemma extraction_rejects net imageData kind :
  extraction_failure net imageData = Some kind →
  ∃ e, Async.settled (extractTransactionsFromImage net imageData) = inl e.
Proof.
  unfold extraction_failure, extractTransactionsFromImage.
  destruct (truthy OPENAI_API_KEY); [|by eauto].
  unfold Async.try_catch, mbind, async_bind, Async.bind, Async.fetch; cbn.
  destruct (net _) as [response|]; cbn; [|by eauto].
  destruct (ok response); cbn; [|by eauto].
  unfold Async.content_of.
  destruct (payload response) as [|c]; cbn; [by eauto|].
  destruct (truthy c) as [content|]; cbn; [|by eauto].
  unfold Async.parse.
  destruct (JSON_parse_extraction content); cbn; [done|by eauto].
Qed.

Lemma extraction_fulfils net imageData :
  extraction_failure net imageData = None →
  ∃ content result,
    reply net (extraction_request imageData) = Some content ∧
    JSON_parse_extraction content = Some result ∧
    Async.settled (extractTransactionsFromImage net imageData) = inr result.
Proof.
  unfold extraction_failure, extractTransactionsFromImage, reply.
  destruct (truthy OPENAI_API_KEY); [|done].
  unfold Async.try_catch, mbind, async_bind, Async.bind, Async.fetch; cbn.
  destruct (net _) as [response|]; cbn; [|done].
  destruct (ok response); cbn; [|done].
  unfold Async.content_of.
  destruct (payload response) as [|c]; cbn; [done|].
  destruct (truthy c) as [content|]; cbn; [|done].
  unfold Async.parse.
  destruct (JSON_parse_extraction content) as [result|] eqn:Hparse; cbn; [|done].
  intros _. by exists content, result.
Qed.

(** ** Updates by id *)

Lemma has_id_true fileId f : has_id fileId f = true ↔ UploadedFile.id f = fileId.
Proof. unfold has_id. by rewrite bool_decide_eq_true. Qed.

Lemma update_by_id_ids fileId change prev :
  (∀ f, UploadedFile.id (change f) = UploadedFile.id f) →
  ids (update_by_id fileId change prev) = ids prev.
Proof.
  intros Hid. unfold ids, update_by_id. rewrite <- list_fmap_compose.
  apply list_fmap_ext. intros i f _. cbn. by destruct (has_id fileId f).
Qed.

Lemma update_by_id_absent fileId change prev :
  fileId ∉ ids prev → update_by_id fileId change prev = prev.
Proof.
  intros Habsent. unfold update_by_id.
  rewrite <- (list_fmap_id prev) at 2. apply list_fmap_ext.
  intros i f Hf. destruct (has_id fileId f) eqn:Hhas; [|done].
  apply has_id_true in Hhas. destruct Habsent.
  unfold ids. apply list_elem_of_fmap. exists f. split; [done|].
  by eapply list_elem_of_lookup_2.
Qed.

Lemma update_by_id_elem fileId change prev f' :
  f' ∈ update_by_id fileId change prev ↔
  ∃ f, f ∈ prev ∧ f' = if has_id fileId f then change f else f.
Proof.
  unfold update_by_id. rewrite list_elem_of_fmap.
  split; intros (f & Hf1 & Hf2); exists f; by split.
Qed.

Lemma update_by_id_lookup fileId change prev i :
  update_by_id fileId change prev !! i
  = (λ f, if has_id fileId f then change f else f) <$> prev !! i.
Proof. unfold update_by_id. apply list_lookup_fmap. Qed.

(** The updater of [processFile] is, in each of its three branches, an update
    of the entries with the id of [file]. *)
Lemma processFile_update_by_id clk file outcome prev :
  ∃ change,
    (∀ f, UploadedFile.id (change f) = UploadedFile.id f) ∧
    (∀ f, UploadedFile.status (change f) = completed ∨
          UploadedFile.status (change f) = error) ∧
    processFile_update clk file outcome prev
    = update_by_id (UploadedFile.id file) change prev.
Proof.
  unfold processFile_update. destruct outcome as [e|result].
  - eexists. split; [|split; [|done]]; cbn; auto.
  - destruct (TransactionExtraction.isValidDocument result); cbn.
    + eexists. split; [|split; [|done]]; cbn; auto.
    + eexists. split; [|split; [|done]]; cbn; auto.
Qed.

Lemma processFile_update_ids clk file outcome prev :
  ids (processFile_update clk file outcome prev) = ids prev.
Proof.
  destruct (processFile_update_by_id clk file outcome prev) as (change & Hid & _ & ->).
  by apply update_by_id_ids.
Qed.

Lemma find_has_id fileId (l : list UploadedFile) f :
  List.find (has_id fileId) l = Some f → f ∈ l ∧ UploadedFile.id f = fileId.
Proof.
  intros Hfind. apply find_some in Hfind as [Hin Hid].
  split; [by apply list_elem_of_In | by apply has_id_true].
Qed.

(** ** Runs of the component *)

Lemma run_nil s : run s [] = Some s.
Proof. done. Qed.

Lemma run_snoc s events e :
  run s (events ++ [e]) = run s events ≫= λ s', step s' e.
Proof. unfold run. by rewrite foldl_app. Qed.

Lemma ids_elem fileId (l : list UploadedFile) :
  fileId ∈ ids l ↔ ∃ f, f ∈ l ∧ UploadedFile.id f = fileId.
Proof.
  unfold ids. rewrite list_elem_of_fmap.
  split; intros (f & Hf1 & Hf2); exists f; by split.
Qed.

Lemma ids_filter_NoDup (P : UploadedFile → Prop) `{∀ f, Decision (P f)} l :
  NoDup (ids l) → NoDup (ids (filter P l)).
Proof.
  intros Hnodup. eapply sublist_NoDup; [exact Hnodup|].
  unfold ids. apply fmap_sublist. apply sublist_filter.
Qed.

Lemma listed_unique s f g :
  consistent s → f ∈ uploadedFiles s → g ∈ uploadedFiles s →
  UploadedFile.id f = UploadedFile.id g → f = g.
Proof.
  intros [_ _ Hnodup] Hf Hg Hid.
  apply list_elem_of_lookup in Hf as [i Hi], Hg as [j Hj].
  assert (i = j) as ->; [|congruence].
  eapply NoDup_lookup; [exact Hnodup| |].
  - unfold ids. rewrite list_lookup_fmap, Hi. reflexivity.
  - unfold ids. rewrite list_lookup_fmap, Hj. cbn. by rewrite Hid.
Qed.

Lemma mounted_consistent ledger : consistent (mounted ledger).
Proof.
  split; cbn.
  - intros p f Hp. by apply elem_of_nil in Hp.
  - intros p Hp. by apply elem_of_nil in Hp.
  - constructor.
Qed.

Lemma step_consistent s e s' : consistent s → step s e = Some s' → consistent s'.
Proof.
  intros [Huntouched Hfresh Hnodup] Hstep.
  destruct e as [file result id now|fileId net clk|fileId|fileId|fileId]; cbn in Hstep.
  - destruct (decide _) as [|Hnew]; [done|]. injection Hstep as <-.
    apply not_elem_of_app in Hnew as [Hlisted Hawaited].
    split; cbn.
    + intros p f Hp Hf Hid.
      apply elem_of_app in Hp as [Hp|Hp], Hf as [Hf|Hf].
      * by apply Huntouched.
      * apply list_elem_of_singleton in Hf as ->. destruct Hawaited.
        apply ids_elem. by exists p.
      * apply list_elem_of_singleton in Hp as ->. destruct Hlisted.
        apply ids_elem. by exists f.
      * apply list_elem_of_singleton in Hp as ->.
        by apply list_elem_of_singleton in Hf as ->.
    + intros p Hp. apply elem_of_app in Hp as [Hp|Hp]; [by apply Hfresh|].
      by apply list_elem_of_singleton in Hp as ->.
    + unfold ids. rewrite fmap_app. apply NoDup_app. split; [done|]. split.
      * intros x Hx Habs. apply list_elem_of_singleton in Habs as ->. by destruct Hlisted.
      * apply NoDup_singleton.
  - destruct (List.find _ _) as [file|] eqn:Hfind; [|done].
    cbn in Hstep. injection Hstep as <-.
    split; cbn.
    + intros p f' Hp Hf' Hid.
      apply list_elem_of_filter in Hp as [Hother Hp].
      destruct (processFile_update_by_id clk file
        (Async.settled (extractTransactionsFromImage net (UploadedFile.preview file)))
        (uploadedFiles s)) as (change & Hchange & _ & Heq).
      rewrite Heq in Hf'. apply update_by_id_elem in Hf' as (f & Hf & ->).
      destruct (has_id (UploadedFile.id file) f) eqn:Hhas.
      * apply has_id_true in Hhas. rewrite Hchange in Hid. congruence.
      * by apply Huntouched.
    + intros p Hp. apply list_elem_of_filter in Hp as [_ Hp]. by apply Hfresh.
    + by rewrite processFile_update_ids.
  - destruct (List.find _ _); [|done]. cbn in Hstep. injection Hstep as <-.
    split; cbn.
    + intros p f Hp Hf. apply list_elem_of_filter in Hf as [_ Hf]. by apply Huntouched.
    + done.
    + by apply ids_filter_NoDup.
  - injection Hstep as <-.
    by split.
  - destruct (List.find _ _); [|done]. cbn in Hstep. injection Hstep as <-.
    by split.
Qed.

Lemma run_consistent s events s' :
  consistent s → run s events = Some s' → consistent s'.
Proof.
  revert s'. induction events as [|e events IH] using rev_ind; intros s' Hs.
  - rewrite run_nil. by intros [= <-].
  - rewrite run_snoc. destruct (run s events) as [s1|]; [|done]. cbn.
    intros Hstep. eapply step_consistent; [|done]. by apply IH.
Qed.

Lemma reachable_consistent ledger events s :
  run (mounted ledger) events = Some s → consistent s.
Proof. apply run_consistent, mounted_consistent. Qed.

(** ** The extraction step of a document *)

Lemma settle_step s fileId file net clk :
  List.find (has_id fileId) (awaiting s) = Some file →
  step s (ExtractionSettled fileId net clk) = Some (processFile_resume net clk file s).
Proof. intros Hfind. cbn. by rewrite Hfind. Qed.

(** A listed document whose extraction is awaited is as [onDrop] made it. *)
Lemma awaited_listed s fileId file f :
  consistent s →
  List.find (has_id fileId) (awaiting s) = Some file →
  f ∈ uploadedFiles s → UploadedFile.id f = fileId →
  UploadedFile.id file = fileId ∧
  UploadedFile.status f = processing ∧
  UploadedFile.extractedTransactions f = [] ∧
  UploadedFile.aiAnalysis f = None.
Proof.
  intros Hs Hfind Hf Hid. apply find_has_id in Hfind as [Hfile Hfid].
  split; [done|].
  assert (f = file) as -> by (eapply (awaited_untouched s Hs); [done..|congruence]).
  by apply (awaited_fresh s Hs).
Qed.

Lemma mockAnalysis_nonempty clk file : mockAnalysis clk file ≠ EmptyString.
Proof. unfold mockAnalysis. discriminate. Qed.

(** C1: when the extraction service answers [isValidDocument = false] for an
    uploaded document, processing completes, and in the resulting list the
    document has status [error] (the rejected status) and no extracted
    transactions, whatever transactions the raw result carries; the list holds
    the same documents as before. *)
Theorem invalid_document_is_rejected_and_empty
    ledger events s fileId file net clk result :
  run (mounted ledger) events = Some s →
  List.find (has_id fileId) (awaiting s) = Some file →
  Async.settled (extractTransactionsFromImage net (UploadedFile.preview file))
    = inr result →
  TransactionExtraction.isValidDocument result = false →
  ∃ s', step s (ExtractionSettled fileId net clk) = Some s' ∧
        ids (uploadedFiles s') = ids (uploadedFiles s) ∧
        ∀ f', f' ∈ uploadedFiles s' → UploadedFile.id f' = fileId →
              UploadedFile.status f' = error ∧
              UploadedFile.extractedTransactions f' = [].
Proof.
  intros Hrun Hfind Hsettled Hinvalid.
  apply reachable_consistent in Hrun.
  eexists. split; [by apply settle_step|]. cbn.
  split; [apply processFile_update_ids|].
  intros f' Hf' Hid. rewrite Hsettled in Hf'. unfold processFile_update in Hf'.
  rewrite Hinvalid in Hf'. cbn in Hf'.
  apply update_by_id_elem in Hf' as (f & Hf & ->).
  destruct (has_id (UploadedFile.id file) f) eqn:Hhas.
  - apply has_id_true in Hhas. cbn in Hid. split; [done|]. cbn.
    by eapply awaited_listed.
  - destruct (awaited_listed s fileId file f Hrun Hfind Hf Hid) as (Hfid & _).
    assert (has_id (UploadedFile.id file) f = true) as Htrue
      by (apply has_id_true; congruence).
    congruence.
Qed.

(** C2: when the extraction call of an uploaded document fails with a
    transport error or a malformed response, processing still completes and
    the document has status [completed], a non-empty list of extracted
    transactions and a non-empty analysis, those of the fallback. *)
Theorem failed_extraction_completes_with_fallback
    ledger events s fileId file net clk kind :
  run (mounted ledger) events = Some s →
  List.find (has_id fileId) (awaiting s) = Some file →
  extraction_failure net (UploadedFile.preview file) = Some kind →
  kind = TransportError ∨ kind = MalformedResponse →
  ∃ s', step s (ExtractionSettled fileId net clk) = Some s' ∧
        ids (uploadedFiles s') = ids (uploadedFiles s) ∧
        ∀ f', f' ∈ uploadedFiles s' → UploadedFile.id f' = fileId →
              UploadedFile.status f' = completed ∧
              UploadedFile.extractedTransactions f' = mockTransactions clk ∧
              UploadedFile.extractedTransactions f' ≠ [] ∧
              UploadedFile.aiAnalysis f' = Some (mockAnalysis clk file) ∧
              mockAnalysis clk file ≠ EmptyString.
Proof.
  intros Hrun Hfind Hfail _.
  apply reachable_consistent in Hrun.
  apply extraction_rejects in Hfail as [e He].
  eexists. split; [by apply settle_step|]. cbn.
  split; [apply processFile_update_ids|].
  intros f' Hf' Hid. rewrite He in Hf'. cbn in Hf'.
  apply update_by_id_elem in Hf' as (f & Hf & ->).
  destruct (has_id (UploadedFile.id file) f) eqn:Hhas.
  - cbn. repeat split; [done|apply mockAnalysis_nonempty].
  - destruct (awaited_listed s fileId file f Hrun Hfind Hf Hid) as (Hfid & _).
    assert (has_id (UploadedFile.id file) f = true) as Htrue
      by (apply has_id_true; congruence).
    congruence.
Qed.

(** C3, as amended: the fallback is applied exactly when the extraction call
    rejects, whatever the failure. A missing credential is found before any
    request is sent, and it makes the call of each document reject, which the
    fallback absorbs like a transport error or a malformed response. When the
    call fulfils, the fallback is not used: the document is rejected or
    completed from the result. *)
Theorem fallback_on_every_failure s fileId file net clk :
  List.find (has_id fileId) (awaiting s) = Some file →
  ∃ s', step s (ExtractionSettled fileId net clk) = Some s' ∧
    (truthy OPENAI_API_KEY = None →
       extraction_failure net (UploadedFile.preview file) = Some ServiceUnavailable ∧
       Async.sent (extractTransactionsFromImage net (UploadedFile.preview file)) = []) ∧
    (∀ kind,
       extraction_failure net (UploadedFile.preview file) = Some kind →
       uploadedFiles s'
       = update_by_id (UploadedFile.id file)
           (finished (mockTransactions clk) (mockAnalysis clk file))
           (uploadedFiles s)) ∧
    (extraction_failure net (UploadedFile.preview file) = None →
       ∃ result,
         Async.settled (extractTransactionsFromImage net (UploadedFile.preview file))
           = inr result ∧
         uploadedFiles s'
         = update_by_id (UploadedFile.id file)
             (if TransactionExtraction.isValidDocument result
              then finished (extracted clk result) (TransactionExtraction.analysis result)
              else rejected result)
             (uploadedFiles s)).
Proof.
  intros Hfind. eexists. split; [by apply settle_step|]. cbn.
  split; [|split].
  - intros Hkey. split.
    + unfold extraction_failure. by rewrite Hkey.
    + by rewrite extraction_without_credential.
  - intros kind Hfail. apply extraction_rejects in Hfail as [e ->]. done.
  - intros Hok. apply extraction_fulfils in Hok as (content & result & _ & _ & Hres).
    exists result. split; [done|]. rewrite Hres. unfold processFile_update.
    by destruct (TransactionExtraction.isValidDocument result).
Qed.

(** C4, as amended: the analysis of a document rejected by the service is the
    text [Document rejected: ] followed by the rejection reason of the
    service, or by a fixed sentence when the reason is missing or empty. *)
Theorem rejected_analysis_is_prefixed_reason
    ledger events s fileId file net clk result :
  run (mounted ledger) events = Some s →
  List.find (has_id fileId) (awaiting s) = Some file →
  Async.settled (extractTransactionsFromImage net (UploadedFile.preview file))
    = inr result →
  TransactionExtraction.isValidDocument result = false →
  ∃ s', step s (ExtractionSettled fileId net clk) = Some s' ∧
        ∀ f', f' ∈ uploadedFiles s' → UploadedFile.id f' = fileId →
              UploadedFile.status f' = error ∧
              UploadedFile.aiAnalysis f'
              = Some ("Document rejected: " +:+
                      match truthy (TransactionExtraction.rejectionReason result) with
                      | Some reason => reason
                      | None => default_rejection
                      end).
Proof.
  intros Hrun Hfind Hsettled Hinvalid.
  apply reachable_consistent in Hrun.
  eexists. split; [by apply settle_step|]. cbn.
  intros f' Hf' Hid. rewrite Hsettled in Hf'. unfold processFile_update in Hf'.
  rewrite Hinvalid in Hf'. cbn in Hf'.
  apply update_by_id_elem in Hf' as (f & Hf & ->).
  destruct (has_id (UploadedFile.id file) f) eqn:Hhas.
  - cbn. split; [done|]. by destruct (truthy _).
  - destruct (awaited_listed s fileId file f Hrun Hfind Hf Hid) as (Hfid & _).
    assert (has_id (UploadedFile.id file) f = true) as Htrue
      by (apply has_id_true; congruence).
    congruence.
Qed.

(** ** Windows of the ledger *)

Lemma slice_last_most_recent {A} (n : nat) (l : list A) : slice_last n l = most_recent n l.
Proof.
  unfold slice_last, most_recent. by rewrite take_reverse, reverse_involutive.
Qed.

Lemma most_recent_length {A} (n : nat) (l : list A) :
  (n ≤ length l)%nat → length (most_recent n l) = n.
Proof.
  intros Hn. rewrite <- slice_last_most_recent. unfold slice_last.
  rewrite length_drop. lia.
Qed.

Lemma most_recent_suffix {A} (n : nat) (l : list A) :
  l = (take (length l - n) l ++ most_recent n l)%list.
Proof.
  rewrite <- slice_last_most_recent. unfold slice_last. by rewrite take_drop.
Qed.

Lemma chat_sends_one_request net message imageData context transactions key :
  truthy OPENAI_API_KEY = Some key →
  Async.sent (chatAboutReceipt net message imageData context transactions)
  = [ chat_request message imageData context transactions ].
Proof.
  intros Hkey. unfold chatAboutReceipt. rewrite Hkey.
  unfold Async.try_catch, mbind, async_bind, Async.bind, Async.fetch; cbn.
  destruct (net _) as [response|]; cbn; [|done].
  destruct (ok response); cbn; [|done].
  unfold Async.content_of.
  destruct (payload response) as [|c]; cbn; [done|].
  by destruct (truthy c).
Qed.

(** C5: a chat call that is given a ledger of more than 50 transactions sends
    one request, whose second message is the system context holding the
    summary; the summary is the lines, joined by line feeds, of exactly the
    last 50 transactions of the ledger in their order, each line giving the
    date, the amount with [+] for an income and [-] otherwise, the description
    and the category. *)
Theorem chat_summary_has_the_last_fifty
    net message imageData context transactions key :
  truthy OPENAI_API_KEY = Some key →
  (50 < length transactions)%nat →
  Async.sent (chatAboutReceipt net message imageData context (Some transactions))
    = [ chat_request message imageData context (Some transactions) ] ∧
  (∃ rest,
     messages (body (chat_request message imageData context (Some transactions)))
     = {| role := system; content := content_text chat_system_prompt |}
       :: {| role := system;
             content := content_text
               ("Here is the user's recent transaction history for context:"
                +:+ LF +:+
                String.concat LF (summary_line <$> most_recent 50 transactions)
                +:+ LF +:+ LF +:+
                "Use this information to provide personalized insights and answer questions about their spending patterns, budgets, and financial habits.") |}
       :: rest) ∧
  length (most_recent 50 transactions) = 50 ∧
  transactions
    = (take (length transactions - 50) transactions
       ++ most_recent 50 transactions)%list ∧
  ∀ t, summary_line t
       = Transaction.date t +:+ ": " +:+
         (match Transaction.type t with income => "+" | expense => "-" end) +:+
         "$" +:+ num_toString (Transaction.amount t) +:+ " - " +:+
         Transaction.description t +:+ " (" +:+ Transaction.category t +:+ ")".
Proof.
  intros Hkey Hlen. split; [by eapply chat_sends_one_request|].
  split; [|split; [|split]].
  - destruct transactions as [|t ts]; [cbn in Hlen; lia|].
    eexists. unfold chat_request, post, chat_messages; cbn [body messages app].
    unfold history_message, transactionSummary.
    rewrite slice_last_most_recent. reflexivity.
  - apply most_recent_length. lia.
  - apply most_recent_suffix.
  - done.
Qed.

Lemma insights_send_one_request net transactions key :
  truthy OPENAI_API_KEY = Some key → transactions ≠ [] →
  Async.sent (generateFinancialInsights net transactions)
  = [ insights_request transactions ].
Proof.
  intros Hkey Hne. unfold generateFinancialInsights. rewrite Hkey.
  destruct transactions as [|t ts]; [done|].
  unfold Async.try_catch, mbind, async_bind, Async.bind, Async.fetch; cbn.
  destruct (net _) as [response|]; cbn; [|done].
  destruct (ok response); cbn; [|done].
  unfold Async.content_of.
  destruct (payload response) as [|c]; cbn; [done|].
  destruct (truthy c) as [content|]; cbn; [|done].
  unfold Async.parse. by destruct (JSON_parse content).
Qed.

(** C6: an insight call that is given a ledger of more than 20 transactions
    sends one request, whose user message carries the JSON serialization of
    exactly the last 20 transactions of the ledger. *)
Theorem insights_request_has_the_last_twenty net transactions key :
  truthy OPENAI_API_KEY = Some key →
  (20 < length transactions)%nat →
  Async.sent (generateFinancialInsights net transactions)
    = [ insights_request transactions ] ∧
  messages (body (insights_request transactions))
    = [ {| role := system; content := content_text insights_system_prompt |};
        {| role := user;
           content := content_text
             ("Analyze these transactions and provide insights: " +:+
              JSON_stringify (most_recent 20 transactions)) |} ] ∧
  length (most_recent 20 transactions) = 20 ∧
  transactions
    = (take (length transactions - 20) transactions
       ++ most_recent 20 transactions)%list.
Proof.
  intros Hkey Hlen. split; [|split; [|split]].
  - eapply insights_send_one_request; [done|].
    intros ->. cbn in Hlen. lia.
  - unfold insights_request, post; cbn [body messages].
    by rewrite slice_last_most_recent.
  - apply most_recent_length. lia.
  - apply most_recent_suffix.
Qed.

(** What [generateFinancialInsights] does in every case. It never rejects. It
    returns the empty list without sending a request when no credential is
    configured or the list of transactions is empty, and it returns the empty
    list when the call brings back nothing that parses as a JSON array (the
    request does not complete, the status is a failure, there is no text, the
    text is not JSON, or it is JSON but not an array). The elements of a JSON
    array are returned without a look at what they are. *)
Theorem insights_degrade_to_empty net transactions :
  (∃ insights,
     Async.settled (generateFinancialInsights net transactions) = inr insights) ∧
  (truthy OPENAI_API_KEY = None ∨ transactions = [] →
     generateFinancialInsights net transactions = Async.mk [] (inr [])) ∧
  (reply net (insights_request transactions) ≫= JSON_items = None →
     Async.settled (generateFinancialInsights net transactions) = inr []) ∧
  (∀ key items,
     truthy OPENAI_API_KEY = Some key → transactions ≠ [] →
     reply net (insights_request transactions) ≫= JSON_items = Some items →
     Async.settled (generateFinancialInsights net transactions) = inr items).
Proof.
  assert (truthy OPENAI_API_KEY = None ∨ transactions = [] →
          generateFinancialInsights net transactions = Async.mk [] (inr []))
    as Hquiet.
  { unfold generateFinancialInsights.
    intros [->| ->]; [done|]. by destruct (truthy OPENAI_API_KEY). }
  assert (∀ key, truthy OPENAI_API_KEY = Some key → transactions ≠ [] →
          Async.settled (generateFinancialInsights net transactions)
          = inr (default [] (reply net (insights_request transactions) ≫= JSON_items)))
    as Hloud.
  { intros key Hkey Hne. unfold generateFinancialInsights, reply, JSON_items.
    rewrite Hkey. destruct transactions as [|t ts]; [done|].
    unfold Async.try_catch, mbind, async_bind, Async.bind, Async.fetch; cbn.
    destruct (net _) as [response|]; cbn; [|done].
    destruct (ok response); cbn; [|done].
    unfold Async.content_of.
    destruct (payload response) as [|c]; cbn; [done|].
    destruct (truthy c) as [content|]; cbn; [|done].
    unfold Async.parse.
    destruct (JSON_parse content) as [j|]; cbn; [|done]. by destruct j. }
  split; [|split; [done|split]].
  - destruct (truthy OPENAI_API_KEY) as [key|] eqn:Hkey.
    + destruct transactions as [|t ts] eqn:Hts.
      * rewrite Hquiet by auto. by eexists.
      * erewrite Hloud by done. by eexists.
    + rewrite Hquiet by auto. by eexists.
  - intros Hnone. destruct (truthy OPENAI_API_KEY) as [key|] eqn:Hkey.
    + destruct transactions as [|t ts] eqn:Hts.
      * by rewrite Hquiet by auto.
      * erewrite Hloud by done. by rewrite Hnone.
    + by rewrite Hquiet by auto.
  - intros key items Hkey Hne Hitems. erewrite Hloud by done. by rewrite Hitems.
Qed.

(** ** Merging into the ledger *)

(** C8: merging a listed document (completed or not) twice appends its
    extracted transactions to the ledger twice, so that a document with
    transactions makes the second merge change the ledger again; the list of
    documents, and with it the transactions of the document, is unchanged. *)
Theorem merging_twice_duplicates s fileId file :
  List.find (has_id fileId) (uploadedFiles s) = Some file →
  ∃ s1 s2,
    step s (AddToTrackerClicked fileId) = Some s1 ∧
    step s1 (AddToTrackerClicked fileId) = Some s2 ∧
    transactions s1
      = (transactions s ++ UploadedFile.extractedTransactions file)%list ∧
    transactions s2
      = (transactions s ++ UploadedFile.extractedTransactions file
           ++ UploadedFile.extractedTransactions file)%list ∧
    uploadedFiles s1 = uploadedFiles s ∧
    uploadedFiles s2 = uploadedFiles s ∧
    List.find (has_id fileId) (uploadedFiles s2) = Some file ∧
    (UploadedFile.extractedTransactions file ≠ [] → transactions s2 ≠ transactions s1).
Proof.
  intros Hfind.
  exists (addTransactionsToTracker (UploadedFile.extractedTransactions file) s).
  exists (addTransactionsToTracker (UploadedFile.extractedTransactions file)
            (addTransactionsToTracker (UploadedFile.extractedTransactions file) s)).
  cbn. rewrite Hfind. cbn. unfold handleAddTransactions.
  repeat split; [by rewrite <- app_assoc|].
  intros Hne Heq. apply (f_equal length) in Heq. rewrite !length_app in Heq.
  destruct (UploadedFile.extractedTransactions file); [done|]. cbn in Heq. lia.
Qed.

(** ** The status of a document *)

Lemma step_new_is_processing s e s' f' :
  step s e = Some s' → f' ∈ uploadedFiles s' →
  UploadedFile.id f' ∉ ids (uploadedFiles s) →
  UploadedFile.status f' = processing.
Proof.
  intros Hstep Hf' Hnew.
  assert (f' ∈ uploadedFiles s → UploadedFile.status f' = processing) as Hold.
  { intros Hf. destruct Hnew. apply ids_elem. by exists f'. }
  destruct e as [file result id now|fileId net clk|fileId|fileId|fileId]; cbn in Hstep.
  - destruct (decide _); [done|]. injection Hstep as <-. cbn in Hf'.
    apply elem_of_app in Hf' as [Hf'|Hf']; [by apply Hold|].
    by apply list_elem_of_singleton in Hf' as ->.
  - destruct (List.find _ _) as [file|]; [|done]. cbn in Hstep. injection Hstep as <-.
    cbn in Hf'. destruct Hnew. rewrite <- (processFile_update_ids clk file
      (Async.settled (extractTransactionsFromImage net (UploadedFile.preview file)))).
    apply ids_elem. by exists f'.
  - destruct (List.find _ _); [|done]. cbn in Hstep. injection Hstep as <-.
    cbn in Hf'. apply list_elem_of_filter in Hf' as [_ Hf']. by apply Hold.
  - injection Hstep as <-.
    by apply Hold.
  - destruct (List.find _ _); [|done]. cbn in Hstep. injection Hstep as <-.
    by apply Hold.
Qed.

Lemma step_status s e s' f f' :
  consistent s → step s e = Some s' →
  f ∈ uploadedFiles s → f' ∈ uploadedFiles s' →
  UploadedFile.id f' = UploadedFile.id f →
  UploadedFile.status f' = UploadedFile.status f ∨
  (UploadedFile.status f = processing ∧
   (UploadedFile.status f' = completed ∨ UploadedFile.status f' = error) ∧
   ∃ net clk, e = ExtractionSettled (UploadedFile.id f) net clk).
Proof.
  intros Hs Hstep Hf Hf' Hid.
  assert (f' ∈ uploadedFiles s → UploadedFile.status f' = UploadedFile.status f) as Hold.
  { intros Hin. by rewrite (listed_unique s f' f Hs Hin Hf Hid). }
  destruct e as [file result id now|fileId net clk|fileId|fileId|fileId]; cbn in Hstep.
  - destruct (decide _) as [|Hnew]; [done|]. injection Hstep as <-. cbn in Hf'.
    apply not_elem_of_app in Hnew as [Hlisted _].
    apply elem_of_app in Hf' as [Hf'|Hf']; [left; by apply Hold|].
    apply list_elem_of_singleton in Hf' as ->. cbn in Hid. destruct Hlisted.
    apply ids_elem. by exists f.
  - destruct (List.find _ _) as [file|] eqn:Hfind; [|done].
    cbn in Hstep. injection Hstep as <-. cbn in Hf'.
    destruct (processFile_update_by_id clk file
      (Async.settled (extractTransactionsFromImage net (UploadedFile.preview file)))
      (uploadedFiles s)) as (change & Hchange & Hterminal & Heq).
    rewrite Heq in Hf'. apply update_by_id_elem in Hf' as (f0 & Hf0 & ->).
    destruct (has_id (UploadedFile.id file) f0) eqn:Hhas.
    + right. rewrite Hchange in Hid.
      assert (f0 = f) as -> by by apply (listed_unique s).
      apply has_id_true in Hhas.
      destruct (awaited_listed s fileId file f Hs Hfind Hf) as (Hfid & Hproc & _).
      { apply find_has_id in Hfind as [_ Hfid]. congruence. }
      split; [done|]. split; [apply Hterminal|].
      exists net, clk. congruence.
    + left. by apply Hold.
  - destruct (List.find _ _); [|done]. cbn in Hstep. injection Hstep as <-.
    cbn in Hf'. apply list_elem_of_filter in Hf' as [_ Hf']. left. by apply Hold.
  - injection Hstep as <-.
    left. by apply Hold.
  - destruct (List.find _ _); [|done]. cbn in Hstep. injection Hstep as <-.
    left. by apply Hold.
Qed.

(** A document that has left [processing] keeps its whole record for as long
    as its id is not generated again. *)
Lemma terminal_kept s events s' f :
  consistent s → f ∈ uploadedFiles s → UploadedFile.status f ≠ processing →
  (∀ file result now, FileRead file result (UploadedFile.id f) now ∉ events) →
  run s events = Some s' →
  (∀ g, g ∈ uploadedFiles s' → UploadedFile.id g = UploadedFile.id f → g = f) ∧
  UploadedFile.id f ∉ ids (awaiting s').
Proof.
  intros Hs Hf Hterminal. revert s'.
  induction events as [|e events IH] using rev_ind; intros s' Hreads Hrun.
  - rewrite run_nil in Hrun. injection Hrun as <-. split.
    + intros g Hg Hid. by apply (listed_unique s).
    + intros Hawaited. apply ids_elem in Hawaited as (p & Hp & Hid).
      assert (f = p) as -> by by apply (awaited_untouched s Hs).
      by destruct (awaited_fresh s Hs p Hp) as [? _].
  - rewrite run_snoc in Hrun.
    destruct (run s events) as [s1|] eqn:Hrun1; [|done]. cbn in Hrun.
    destruct (IH s1) as [Hkept Hnot]; [|done|].
    { intros file result now Hin. eapply Hreads, elem_of_app. by left. }
    destruct e as [file result id now|fileId net clk|fileId|fileId|fileId]; cbn in Hrun.
    + destruct (decide _); [done|]. injection Hrun as <-. cbn.
      assert (id ≠ UploadedFile.id f) as Hother.
      { intros ->. eapply Hreads, elem_of_app. right. by apply list_elem_of_singleton. }
      split.
      * intros g Hg Hid. apply elem_of_app in Hg as [Hg|Hg]; [by apply Hkept|].
        by apply list_elem_of_singleton in Hg as ->.
      * intros Hin. apply ids_elem in Hin as (p & Hp & Hid).
        apply elem_of_app in Hp as [Hp|Hp].
        -- apply Hnot, ids_elem. by exists p.
        -- by apply list_elem_of_singleton in Hp as ->.
    + destruct (List.find _ _) as [file|] eqn:Hfind; [|done].
      cbn in Hrun. injection Hrun as <-. cbn.
      apply find_has_id in Hfind as [Hfile Hfid].
      assert (UploadedFile.id file ≠ UploadedFile.id f) as Hother.
      { intros Heq. apply Hnot, ids_elem. by exists file. }
      split.
      * intros g Hg Hid.
        destruct (processFile_update_by_id clk file
          (Async.settled (extractTransactionsFromImage net (UploadedFile.preview file)))
          (uploadedFiles s1)) as (change & Hchange & _ & Heq).
        rewrite Heq in Hg. apply update_by_id_elem in Hg as (g0 & Hg0 & ->).
        destruct (has_id (UploadedFile.id file) g0) eqn:Hhas.
        -- apply has_id_true in Hhas. rewrite Hchange in Hid. congruence.
        -- by apply Hkept.
      * intros Hin. apply ids_elem in Hin as (p & Hp & Hid).
        apply list_elem_of_filter in Hp as [_ Hp]. apply Hnot, ids_elem. by exists p.
    + destruct (List.find _ _); [|done]. cbn in Hrun. injection Hrun as <-. cbn.
      split; [|done]. intros g Hg. apply list_elem_of_filter in Hg as [_ Hg].
      by apply Hkept.
    + by injection Hrun as <-.
    + destruct (List.find _ _); [|done]. cbn in Hrun. by injection Hrun as <-.
Qed.

(** C9: in every state the component can reach, (1) a document that a step
    adds to the list has status [processing]; (2) a step leaves the status of
    a listed document as it is, except that the settling of the extraction of
    that document moves it from [processing] to [completed] or to [error] (the
    rejected status); (3) a document that is no longer [processing] has no
    extraction left to settle, and it keeps its status in every later state in
    which it is listed, for as long as its id is not generated again: it never
    returns to [processing] and never moves between [completed] and [error]. *)
Theorem status_changes_once ledger events s :
  run (mounted ledger) events = Some s →
  (∀ e s' f',
     step s e = Some s' → f' ∈ uploadedFiles s' →
     UploadedFile.id f' ∉ ids (uploadedFiles s) →
     UploadedFile.status f' = processing) ∧
  (∀ e s' f f',
     step s e = Some s' → f ∈ uploadedFiles s → f' ∈ uploadedFiles s' →
     UploadedFile.id f' = UploadedFile.id f →
     UploadedFile.status f' = UploadedFile.status f ∨
     (UploadedFile.status f = processing ∧
      (UploadedFile.status f' = completed ∨ UploadedFile.status f' = error) ∧
      ∃ net clk, e = ExtractionSettled (UploadedFile.id f) net clk)) ∧
  (∀ f later s' f',
     f ∈ uploadedFiles s → UploadedFile.status f ≠ processing →
     (∀ file result now, FileRead file result (UploadedFile.id f) now ∉ later) →
     run s later = Some s' →
     (UploadedFile.id f ∉ ids (awaiting s')) ∧
     (f' ∈ uploadedFiles s' → UploadedFile.id f' = UploadedFile.id f →
      UploadedFile.status f' = UploadedFile.status f)).
Proof.
  intros Hrun. apply reachable_consistent in Hrun.
  split; [|split].
  - intros e s' f'. apply step_new_is_processing.
  - intros e s' f f'. by apply step_status.
  - intros f later s' f' Hf Hterminal Hreads Hlater.
    destruct (terminal_kept s later s' f Hrun Hf Hterminal Hreads Hlater)
      as [Hkept Hnot].
    split; [done|]. intros Hf' Hid. by rewrite (Hkept f' Hf' Hid).
Qed.

(** ** Deletion and late results *)

(** C10: the update that [processFile] applies for a document leaves a list
    that does not hold the id of the document as it is, so that the result of
    an extraction that settles after its document was deleted changes nothing
    and does not bring the document back; in any list it leaves every entry
    with another id in place and unchanged. Deleting a document removes every
    entry with its id and clears the selection of the chat when the selected
    file has that id, and keeps the selection otherwise. *)
Theorem late_result_is_dropped s fileId file net clk outcome prev :
  (UploadedFile.id file ∉ ids prev →
     processFile_update clk file outcome prev = prev) ∧
  (∀ i f, prev !! i = Some f → UploadedFile.id f ≠ UploadedFile.id file →
          processFile_update clk file outcome prev !! i = Some f) ∧
  ids (processFile_update clk file outcome prev) = ids prev ∧
  (List.find (has_id fileId) (awaiting s) = Some file →
   fileId ∉ ids (uploadedFiles s) →
   ∃ s', step s (ExtractionSettled fileId net clk) = Some s' ∧
         uploadedFiles s' = uploadedFiles s) ∧
  (fileId ∉ ids (uploadedFiles (deleteFile fileId s))) ∧
  awaiting (deleteFile fileId s) = awaiting s ∧
  (∀ f, selectedFile s = Some f →
        selectedFile (deleteFile fileId s)
        = if decide (UploadedFile.id f = fileId) then None else Some f).
Proof.
  destruct (processFile_update_by_id clk file outcome prev)
    as (change & Hchange & _ & Heq).
  assert (UploadedFile.id file ∉ ids prev →
          processFile_update clk file outcome prev = prev) as Habsent.
  { intros Hnot. rewrite Heq. by apply update_by_id_absent. }
  split; [done|]. split; [|split; [|split; [|split; [|split]]]].
  - intros i f Hi Hother. rewrite Heq, update_by_id_lookup, Hi. cbn.
    destruct (has_id (UploadedFile.id file) f) eqn:Hhas; [|done].
    by apply has_id_true in Hhas.
  - apply processFile_update_ids.
  - intros Hfind Hnot. eexists. split; [by apply settle_step|]. cbn.
    apply find_has_id in Hfind as [_ <-].
    destruct (processFile_update_by_id clk file
      (Async.settled (extractTransactionsFromImage net (UploadedFile.preview file)))
      (uploadedFiles s)) as (change' & _ & _ & ->).
    by apply update_by_id_absent.
  - cbn. intros Hin. apply ids_elem in Hin as (f & Hf & Hid).
    apply list_elem_of_filter in Hf as [Hne _]. done.
  - done.
  - intros f Hsel. cbn. rewrite Hsel. unfold has_id.
    destruct (decide (UploadedFile.id f = fileId)) as [Hid|Hid].
    + by rewrite bool_decide_eq_true_2.
    + by rewrite bool_decide_eq_false_2.
Qed.

(** * Further properties of the code *)

(** ** The calls to the service *)

Lemma extraction_sends_one_request net imageData key :
  truthy OPENAI_API_KEY = Some key →
  Async.sent (extractTransactionsFromImage net imageData)
  = [ extraction_request imageData ].
Proof.
  intros Hkey. unfold extractTransactionsFromImage. rewrite Hkey.
  unfold Async.try_catch, mbind, async_bind, Async.bind, Async.fetch; cbn.
  destruct (net _) as [response|]; cbn; [|done].
  destruct (ok response); cbn; [|done].
  unfold Async.content_of.
  destruct (payload response) as [|c]; cbn; [done|].
  destruct (truthy c) as [content|]; cbn; [|done].
  unfold Async.parse. by destruct (JSON_parse_extraction content).
Qed.

Lemma chat_sends_at_most_one net message imageData context transactions :
  (length (Async.sent (chatAboutReceipt net message imageData context transactions))
   ≤ 1)%nat.
Proof.
  destruct (truthy OPENAI_API_KEY) as [key|] eqn:Hkey.
  - erewrite chat_sends_one_request by done. cbn. lia.
  - unfold chatAboutReceipt. rewrite Hkey. cbn. lia.
Qed.

Lemma insights_send_at_most_one net transactions :
  (length (Async.sent (generateFinancialInsights net transactions)) ≤ 1)%nat.
Proof.
  destruct (truthy OPENAI_API_KEY) as [key|] eqn:Hkey.
  - destruct transactions as [|t ts].
    + unfold generateFinancialInsights. rewrite Hkey. cbn. lia.
    + erewrite insights_send_one_request by done. cbn. lia.
  - unfold generateFinancialInsights. rewrite Hkey. cbn. lia.
Qed.

(** How a chat call settles. *)
Lemma chat_settles net question imageData context transactions :
  match truthy OPENAI_API_KEY,
        reply net (chat_request question imageData context transactions) with
  | Some _, Some content =>
    Async.settled (chatAboutReceipt net question imageData context transactions)
    = inr {| message := content; suggestions := Some [] |}
  | _, _ =>
    ∃ e, Async.settled (chatAboutReceipt net question imageData context transactions)
         = inl e
  end.
Proof.
  unfold chatAboutReceipt, reply.
  destruct (truthy OPENAI_API_KEY) as [key|]; cbn; [|by eexists].
  unfold Async.try_catch, mbind, async_bind, Async.bind, Async.fetch; cbn.
  destruct (net _) as [r|]; cbn; [|by eexists].
  destruct (ok r); cbn; [|by eexists].
  unfold Async.content_of.
  destruct (payload r) as [|c]; cbn; [by eexists|].
  destruct (truthy c) as [content|]; cbn; [done|by eexists].
Qed.

(** X1: each of the three calls to the service hands at most one request to
    [fetch] (nothing is retried), and none at all when no credential is
    configured; with a credential, an extraction and a chat call send exactly
    their one request, and so does an insight call for a ledger that is not
    empty. *)
Theorem calls_send_at_most_one_request
    net imageData message chatImage context history transactions :
  ((length (Async.sent (extractTransactionsFromImage net imageData)) ≤ 1)%nat ∧
   (length (Async.sent (chatAboutReceipt net message chatImage context history)) ≤ 1)%nat ∧
   (length (Async.sent (generateFinancialInsights net transactions)) ≤ 1)%nat) ∧
  (truthy OPENAI_API_KEY = None →
   Async.sent (extractTransactionsFromImage net imageData) = [] ∧
   Async.sent (chatAboutReceipt net message chatImage context history) = [] ∧
   Async.sent (generateFinancialInsights net transactions) = []) ∧
  (∀ key, truthy OPENAI_API_KEY = Some key →
   Async.sent (extractTransactionsFromImage net imageData)
     = [ extraction_request imageData ] ∧
   Async.sent (chatAboutReceipt net message chatImage context history)
     = [ chat_request message chatImage context history ] ∧
   (transactions ≠ [] →
    Async.sent (generateFinancialInsights net transactions)
      = [ insights_request transactions ])).
Proof.
  assert (truthy OPENAI_API_KEY = None →
          Async.sent (extractTransactionsFromImage net imageData) = [] ∧
          Async.sent (chatAboutReceipt net message chatImage context history) = [] ∧
          Async.sent (generateFinancialInsights net transactions) = []) as Hnone.
  { intros Hkey. unfold extractTransactionsFromImage, chatAboutReceipt,
      generateFinancialInsights.
    rewrite Hkey. done. }
  assert (∀ key, truthy OPENAI_API_KEY = Some key →
          Async.sent (extractTransactionsFromImage net imageData)
            = [ extraction_request imageData ] ∧
          Async.sent (chatAboutReceipt net message chatImage context history)
            = [ chat_request message chatImage context history ] ∧
          (transactions ≠ [] →
           Async.sent (generateFinancialInsights net transactions)
             = [ insights_request transactions ])) as Hsome.
  { intros key Hkey. split; [by eapply extraction_sends_one_request|].
    split; [by eapply chat_sends_one_request|].
    intros Hne. by eapply insights_send_one_request. }
  split; [|by split].
  split; [|split; [apply chat_sends_at_most_one|apply insights_send_at_most_one]].
  destruct (truthy OPENAI_API_KEY) as [key|] eqn:Hkey.
  - destruct (Hsome key eq_refl) as (-> & _). cbn. lia.
  - destruct (Hnone eq_refl) as (-> & _). cbn. lia.
Qed.

(** X2: an extraction call fulfils with a result exactly when a credential is
    configured, the service answers with a success status and a text that is
    not empty, and [JSON.parse] accepts the text; the result is then what
    [JSON.parse] gave, without any validation. *)
Theorem extraction_returns_what_parses net imageData result :
  Async.settled (extractTransactionsFromImage net imageData) = inr result ↔
  is_Some (truthy OPENAI_API_KEY) ∧
  ∃ content,
    reply net (extraction_request imageData) = Some content ∧
    JSON_parse_extraction content = Some result.
Proof.
  unfold extractTransactionsFromImage, reply.
  destruct (truthy OPENAI_API_KEY) as [key|]; cbn.
  2:{ split; [done|]. intros [[? [=]] _]. }
  unfold Async.try_catch, mbind, async_bind, Async.bind, Async.fetch; cbn.
  destruct (net _) as [response|]; cbn.
  2:{ split; [done|]. by intros (_ & content & [=] & _). }
  destruct (ok response); cbn.
  2:{ split; [done|]. by intros (_ & content & [=] & _). }
  unfold Async.content_of.
  destruct (payload response) as [|c]; cbn.
  { split; [done|]. by intros (_ & content & [=] & _). }
  destruct (truthy c) as [content|]; cbn.
  2:{ split; [done|]. by intros (_ & content & [=] & _). }
  unfold Async.parse.
  destruct (JSON_parse_extraction content) as [parsed|] eqn:Hparse; cbn.
  - split.
    + intros [= ->]. split; [by eexists|]. by exists content.
    + intros (_ & content' & [= <-] & Hparse'). congruence.
  - split; [done|]. intros (_ & content' & [= <-] & Hparse'). congruence.
Qed.

(** X3: a chat call fulfils exactly when a credential is configured and the
    service answers with a success status and a text that is not empty; the
    message of the response is that text, unchanged, and the suggestions are
    the empty list. *)
Theorem chat_returns_the_reply net question imageData context transactions response :
  Async.settled (chatAboutReceipt net question imageData context transactions)
    = inr response ↔
  is_Some (truthy OPENAI_API_KEY) ∧
  ∃ content,
    reply net (chat_request question imageData context transactions) = Some content ∧
    response = {| message := content; suggestions := Some [] |}.
Proof.
  pose proof (chat_settles net question imageData context transactions) as Hsettles.
  destruct (truthy OPENAI_API_KEY) as [key|].
  - destruct (reply net _) as [content|].
    + rewrite Hsettles. split.
      * intros [= <-]. split; [by eexists|]. by exists content.
      * by intros (_ & content' & [= <-] & ->).
    + destruct Hsettles as [e ->]. split; [done|]. by intros (_ & content & [=] & _).
  - destruct Hsettles as [e ->]. split; [done|]. intros [[? [=]] _].
Qed.

Lemma slice_last_all {A} (n : nat) (l : list A) :
  (length l ≤ n)%nat → slice_last n l = l.
Proof.
  intros Hle. unfold slice_last. by replace (length l - n) with 0 by lia.
Qed.

Lemma slice_last_app {A} (n : nat) (older recent : list A) :
  (n ≤ length recent)%nat → slice_last n (older ++ recent)%list = slice_last n recent.
Proof.
  intros Hle. unfold slice_last. rewrite length_app, drop_app_ge by lia.
  f_equal. lia.
Qed.

(** X4: a ledger of at most 50 transactions goes into the chat summary whole
    and in its order, and a ledger of at most 20 transactions goes into the
    insight request whole: the windows only ever drop transactions from
    longer ledgers. *)
Theorem small_ledgers_are_sent_whole transactions :
  ((length transactions ≤ 50)%nat →
   transactionSummary transactions
   = String.concat LF (summary_line <$> transactions)) ∧
  ((length transactions ≤ 20)%nat →
   messages (body (insights_request transactions))
   = [ {| role := system; content := content_text insights_system_prompt |};
       {| role := user;
          content := content_text
            ("Analyze these transactions and provide insights: " +:+
             JSON_stringify transactions) |} ]).
Proof.
  split; intros Hle.
  - unfold transactionSummary. by rewrite slice_last_all.
  - unfold insights_request, post; cbn [body messages]. by rewrite slice_last_all.
Qed.

Lemma chat_request_window message imageData context (older recent : list Transaction) :
  (50 ≤ length recent)%nat →
  chat_request message imageData context (Some (older ++ recent)%list)
  = chat_request message imageData context (Some recent).
Proof.
  intros Hle. unfold chat_request, chat_messages. do 3 f_equal.
  destruct recent as [|r recent]; [cbn in Hle; lia|].
  destruct (older ++ r :: recent)%list as [|t ts] eqn:Hall.
  { by destruct older. }
  rewrite <- Hall. unfold history_message, transactionSummary.
  by rewrite slice_last_app.
Qed.

Lemma insights_request_window (older recent : list Transaction) :
  (20 ≤ length recent)%nat →
  insights_request (older ++ recent)%list = insights_request recent.
Proof.
  intros Hle. unfold insights_request. by rewrite slice_last_app.
Qed.

(** X5: what lies before the window never reaches the service. A chat call
    and an insight call for a ledger give the same requests and the same
    results as for its last 50, respectively last 20, transactions alone. *)
Theorem only_the_window_is_sent net message imageData context older recent :
  ((50 ≤ length recent)%nat →
   chatAboutReceipt net message imageData context (Some (older ++ recent)%list)
   = chatAboutReceipt net message imageData context (Some recent)) ∧
  ((20 ≤ length recent)%nat →
   generateFinancialInsights net (older ++ recent)%list
   = generateFinancialInsights net recent).
Proof.
  split; intros Hle.
  - unfold chatAboutReceipt. by rewrite chat_request_window.
  - unfold generateFinancialInsights.
    destruct recent as [|r recent]; [cbn in Hle; lia|].
    destruct (older ++ r :: recent)%list as [|t ts] eqn:Hall.
    { by destruct older. }
    rewrite <- Hall. by rewrite insights_request_window.
Qed.

(** ** The tracker of documents *)


Lemma step_processing_awaited s e s' :
  consistent s →
  (∀ f, f ∈ uploadedFiles s → UploadedFile.status f = processing →
        UploadedFile.id f ∈ ids (awaiting s)) →
  step s e = Some s' →
  ∀ f, f ∈ uploadedFiles s' → UploadedFile.status f = processing →
       UploadedFile.id f ∈ ids (awaiting s').
Proof.
  intros Hs Hinv Hstep f' Hf' Hproc.
  destruct e as [file result id now|fileId net clk|fileId|fileId|fileId]; cbn in Hstep.
  - destruct (decide _); [done|]. injection Hstep as <-. cbn in Hf' |- *.
    apply ids_elem. apply elem_of_app in Hf' as [Hf'|Hf'].
    + apply Hinv, ids_elem in Hf' as (p & Hp & Hid); [|done].
      exists p. split; [|done]. apply elem_of_app. by left.
    + apply list_elem_of_singleton in Hf' as ->. eexists. split; [|done].
      apply elem_of_app. right. by apply list_elem_of_singleton.
  - destruct (List.find _ _) as [file|] eqn:Hfind; [|done].
    cbn in Hstep. injection Hstep as <-. cbn in Hf' |- *.
    destruct (processFile_update_by_id clk file
      (Async.settled (extractTransactionsFromImage net (UploadedFile.preview file)))
      (uploadedFiles s)) as (change & Hchange & Hterminal & Heq).
    rewrite Heq in Hf'. apply update_by_id_elem in Hf' as (f & Hf & ->).
    destruct (has_id (UploadedFile.id file) f) eqn:Hhas.
    + destruct (Hterminal f) as [Hc|Hc]; congruence.
    + apply Hinv, ids_elem in Hf as (p & Hp & Hid); [|done].
      apply ids_elem. exists p. split; [|done].
      apply list_elem_of_filter. split; [|done].
      intros Heq'. assert (has_id (UploadedFile.id file) f = true) as Htrue
        by (apply has_id_true; congruence).
      congruence.
  - destruct (List.find _ _); [|done]. cbn in Hstep. injection Hstep as <-.
    cbn in Hf' |- *. apply list_elem_of_filter in Hf' as [_ Hf']. by apply Hinv.
  - injection Hstep as <-. by apply Hinv.
  - destruct (List.find _ _); [|done]. cbn in Hstep. injection Hstep as <-.
    by apply Hinv.
Qed.

Lemma reachable_processing_awaited ledger events s :
  run (mounted ledger) events = Some s →
  ∀ f, f ∈ uploadedFiles s → UploadedFile.status f = processing →
       UploadedFile.id f ∈ ids (awaiting s).
Proof.
  revert s. induction events as [|e events IH] using rev_ind; intros s.
  - rewrite run_nil. intros [= <-] f Hf. by apply elem_of_nil in Hf.
  - rewrite run_snoc. destruct (run (mounted ledger) events) as [s1|] eqn:Hrun; [|done].
    cbn. intros Hstep. eapply step_processing_awaited; [|by apply IH|done].
    by eapply reachable_consistent.
Qed.

(** X7: in every state the component can reach, a listed document is
    [processing] exactly when the extraction of a document of that id is
    still awaited: no document is left processing with nothing to complete
    it, and no completed or rejected document has a result still to come. *)
Theorem processing_iff_awaited ledger events s f :
  run (mounted ledger) events = Some s →
  f ∈ uploadedFiles s →
  UploadedFile.status f = processing ↔ UploadedFile.id f ∈ ids (awaiting s).
Proof.
  intros Hrun Hf. split.
  - by eapply reachable_processing_awaited.
  - intros Hawaited. apply ids_elem in Hawaited as (p & Hp & Hid).
    apply reachable_consistent in Hrun.
    assert (f = p) as -> by by apply (awaited_untouched s Hrun).
    by destruct (awaited_fresh s Hrun p Hp) as [? _].
Qed.

Lemma step_unfinished_empty s e s' :
  consistent s →
  (∀ f, f ∈ uploadedFiles s → UploadedFile.status f ≠ completed →
        UploadedFile.extractedTransactions f = []) →
  step s e = Some s' →
  ∀ f, f ∈ uploadedFiles s' → UploadedFile.status f ≠ completed →
       UploadedFile.extractedTransactions f = [].
Proof.
  intros Hs Hinv Hstep f' Hf' Hstatus.
  destruct e as [file result id now|fileId net clk|fileId|fileId|fileId]; cbn in Hstep.
  - destruct (decide _); [done|]. injection Hstep as <-. cbn in Hf' |- *.
    apply elem_of_app in Hf' as [Hf'|Hf']; [by apply Hinv|].
    by apply list_elem_of_singleton in Hf' as ->.
  - destruct (List.find _ _) as [file|] eqn:Hfind; [|done].
    cbn in Hstep. injection Hstep as <-. cbn in Hf' |- *.
    unfold processFile_update in Hf'.
    destruct (Async.settled _) as [err|result].
    + apply update_by_id_elem in Hf' as (f & Hf & ->).
      destruct (has_id _ f); [done|by apply Hinv].
    + destruct (TransactionExtraction.isValidDocument result); cbn in Hf';
        apply update_by_id_elem in Hf' as (f & Hf & ->);
        destruct (has_id _ f) eqn:Hhas; try done; try by apply Hinv.
      cbn. apply has_id_true in Hhas.
      apply find_has_id in Hfind as [Hfile _].
      assert (f = file) as -> by by apply (awaited_untouched s Hs).
      by destruct (awaited_fresh s Hs file Hfile) as (_ & ? & _).
  - destruct (List.find _ _); [|done]. cbn in Hstep. injection Hstep as <-.
    cbn in Hf' |- *. apply list_elem_of_filter in Hf' as [_ Hf']. by apply Hinv.
  - injection Hstep as <-. by apply Hinv.
  - destruct (List.find _ _); [|done]. cbn in Hstep. injection Hstep as <-.
    by apply Hinv.
Qed.

Lemma reachable_unfinished_empty ledger events s :
  run (mounted ledger) events = Some s →
  ∀ f, f ∈ uploadedFiles s → UploadedFile.status f ≠ completed →
       UploadedFile.extractedTransactions f = [].
Proof.
  revert s. induction events as [|e events IH] using rev_ind; intros s.
  - rewrite run_nil. intros [= <-] f Hf. by apply elem_of_nil in Hf.
  - rewrite run_snoc. destruct (run (mounted ledger) events) as [s1|] eqn:Hrun; [|done].
    cbn. intros Hstep. eapply step_unfinished_empty; [|by apply IH|done].
    by eapply reachable_consistent.
Qed.

(** X8: in every state the component can reach, a listed document that is
    not [completed] (still processing, or rejected) holds no extracted
    transactions, so that merging it into the ledger leaves the ledger as it
    is: only completed documents ever contribute transactions. *)
Theorem unfinished_documents_merge_nothing ledger events s fileId file :
  run (mounted ledger) events = Some s →
  List.find (has_id fileId) (uploadedFiles s) = Some file →
  UploadedFile.status file ≠ completed →
  UploadedFile.extractedTransactions file = [] ∧
  ∃ s', step s (AddToTrackerClicked fileId) = Some s' ∧
        transactions s' = transactions s.
Proof.
  intros Hrun Hfind Hstatus.
  assert (UploadedFile.extractedTransactions file = []) as Hempty.
  { eapply reachable_unfinished_empty; [done| |done]. by apply find_has_id in Hfind as [? _]. }
  split; [done|]. eexists. cbn. rewrite Hfind. cbn. split; [done|].
  cbn. unfold handleAddTransactions. rewrite Hempty. apply app_nil_r.
Qed.

Lemma step_ledger s e s' :
  step s e = Some s' →
  transactions s' = transactions s ∨
  ∃ fileId file,
    e = AddToTrackerClicked fileId ∧
    List.find (has_id fileId) (uploadedFiles s) = Some file ∧
    transactions s'
    = (transactions s ++ UploadedFile.extractedTransactions file)%list.
Proof.
  intros Hstep.
  destruct e as [file result id now|fileId net clk|fileId|fileId|fileId]; cbn in Hstep.
  - destruct (decide _); [done|]. injection Hstep as <-. by left.
  - destruct (List.find _ _); [|done]. cbn in Hstep. injection Hstep as <-. by left.
  - destruct (List.find _ _); [|done]. cbn in Hstep. injection Hstep as <-. by left.
  - injection Hstep as <-. by left.
  - destruct (List.find _ _) as [file|] eqn:Hfind; [|done].
    cbn in Hstep. injection Hstep as <-. right. by exists fileId, file.
Qed.

(** X9: the ledger only grows, and only by merges. Along every run of the
    component the ledger it started with stays a prefix of the ledger; a step
    changes the ledger only when it is a merge, which appends the
    transactions of the merged document; and a run without a merge leaves the
    ledger as it is, so that uploading, extracting, selecting and deleting
    documents never add, change or remove a transaction of the ledger. *)
Theorem ledger_grows_by_merges_only s events s' :
  run s events = Some s' →
  transactions s `prefix_of` transactions s' ∧
  ((∀ fileId, AddToTrackerClicked fileId ∉ events) →
   transactions s' = transactions s).
Proof.
  revert s'. induction events as [|e events IH] using rev_ind; intros s'.
  - rewrite run_nil. by intros [= <-].
  - rewrite run_snoc. destruct (run s events) as [s1|] eqn:Hrun; [|done]. cbn.
    intros Hstep. destruct (IH s1 eq_refl) as [Hprefix Hsame].
    apply step_ledger in Hstep as [Heq|(fileId & file & -> & _ & Heq)]; rewrite Heq.
    + split; [done|]. intros Hnone. apply Hsame.
      intros fileId Hin. eapply Hnone, elem_of_app. by left.
    + split; [by apply prefix_app_r|]. intros Hnone. destruct (Hnone fileId).
      apply elem_of_app. right. by apply list_elem_of_singleton.
Qed.

Lemma step_selection_listed s e s' :
  (∀ f, selectedFile s = Some f → UploadedFile.id f ∈ ids (uploadedFiles s)) →
  step s e = Some s' →
  ∀ f, selectedFile s' = Some f → UploadedFile.id f ∈ ids (uploadedFiles s').
Proof.
  intros Hinv Hstep f Hsel.
  destruct e as [file result id now|fileId net clk|fileId|fileId|fileId]; cbn in Hstep.
  - destruct (decide _); [done|]. injection Hstep as <-. cbn in Hsel |- *.
    unfold ids. rewrite fmap_app. apply elem_of_app. left. by apply Hinv.
  - destruct (List.find _ _) as [file|]; [|done]. cbn in Hstep. injection Hstep as <-.
    cbn in Hsel |- *. rewrite processFile_update_ids. by apply Hinv.
  - destruct (List.find _ _); [|done]. cbn in Hstep. injection Hstep as <-.
    cbn in Hsel |- *. destruct (selectedFile s) as [g|] eqn:Hg; [|done].
    destruct (has_id fileId g) eqn:Hhas; [done|]. injection Hsel as <-.
    specialize (Hinv g eq_refl). apply ids_elem in Hinv as (g' & Hg' & Hid).
    apply ids_elem. exists g'. split; [|done]. apply list_elem_of_filter. split; [|done].
    intros Heq. assert (has_id fileId g = true) as Htrue
      by (apply has_id_true; congruence).
    congruence.
  - injection Hstep as <-. cbn in Hsel |- *. apply find_has_id in Hsel as [Hf _].
    apply ids_elem. by exists f.
  - destruct (List.find _ _); [|done]. cbn in Hstep. injection Hstep as <-.
    by apply Hinv.
Qed.

(** X10: in every state the component can reach, the file selected for the
    chat has the id of a listed document: the selection never points at a
    document that was deleted. *)
Theorem selection_is_listed ledger events s f :
  run (mounted ledger) events = Some s →
  selectedFile s = Some f →
  UploadedFile.id f ∈ ids (uploadedFiles s).
Proof.
  revert s f. induction events as [|e events IH] using rev_ind; intros s f.
  - rewrite run_nil. by intros [= <-].
  - rewrite run_snoc. destruct (run (mounted ledger) events) as [s1|] eqn:Hrun; [|done].
    cbn. intros Hstep. eapply step_selection_listed; [|done].
    intros g. by apply IH.
Qed.

Lemma filter_other_ids fileId (l : list UploadedFile) :
  fileId ∉ ids l → filter (λ f, UploadedFile.id f ≠ fileId) l = l.
Proof.
  induction l as [|g l IH]; [done|]. intros Hnot. cbn in Hnot.
  apply not_elem_of_cons in Hnot as [Hne Hnot].
  rewrite filter_cons. destruct (decide _) as [|Hno]; [by rewrite IH|].
  destruct Hno. congruence.
Qed.

Lemma filter_one_id (l : list UploadedFile) f :
  NoDup (ids l) → f ∈ l →
  length (filter (λ g, UploadedFile.id g ≠ UploadedFile.id f) l) + 1 = length l.
Proof.
  induction l as [|g l IH]; intros Hnodup Hf; [by apply elem_of_nil in Hf|].
  cbn in Hnodup. apply NoDup_cons in Hnodup as [Hg Hnodup].
  rewrite filter_cons. apply elem_of_cons in Hf as [->|Hf].
  - destruct (decide _) as [Hne|_]; [done|].
    rewrite filter_other_ids by done. cbn. lia.
  - destruct (decide _) as [_|Heq].
    + cbn. rewrite <- IH by done. lia.
    + destruct Hg. apply ids_elem. exists f. split; [done|].
      destruct (decide (UploadedFile.id f = UploadedFile.id g)); [done|].
      destruct Heq. congruence.
Qed.

(** X11: deleting a listed document in a state the component can reach
    removes exactly one entry, the one with that id, and keeps the other
    documents as they are and in their order; it changes neither the ledger
    nor the extractions that are awaited. *)
Theorem delete_removes_one_document ledger events s fileId file :
  run (mounted ledger) events = Some s →
  List.find (has_id fileId) (uploadedFiles s) = Some file →
  ∃ s', step s (DeleteClicked fileId) = Some s' ∧
        length (uploadedFiles s') + 1 = length (uploadedFiles s) ∧
        uploadedFiles s' `sublist_of` uploadedFiles s ∧
        (∀ g, g ∈ uploadedFiles s' ↔
              g ∈ uploadedFiles s ∧ UploadedFile.id g ≠ fileId) ∧
        transactions s' = transactions s ∧
        awaiting s' = awaiting s.
Proof.
  intros Hrun Hfind. apply reachable_consistent in Hrun.
  eexists. cbn. rewrite Hfind. cbn. split; [done|]. cbn.
  apply find_has_id in Hfind as [Hfile <-].
  split; [apply filter_one_id; [apply (listed_once s Hrun)|done]|].
  split; [apply sublist_filter|]. split; [|done].
  intros g. rewrite list_elem_of_filter. split; intros [? ?]; by split.
Qed.

Lemma update_by_id_comm a b change_a change_b (l : list UploadedFile) :
  a ≠ b →
  (∀ f, UploadedFile.id (change_a f) = UploadedFile.id f) →
  (∀ f, UploadedFile.id (change_b f) = UploadedFile.id f) →
  update_by_id a change_a (update_by_id b change_b l)
  = update_by_id b change_b (update_by_id a change_a l).
Proof.
  intros Hne Ha Hb. unfold update_by_id. rewrite <- !list_fmap_compose.
  apply list_fmap_ext. intros i f _. cbn. unfold has_id.
  destruct (decide (UploadedFile.id f = b)) as [Hfb|Hfb].
  - rewrite !(bool_decide_eq_true_2 _ Hfb).
    rewrite (bool_decide_eq_false_2 (UploadedFile.id (change_b f) = a))
      by (rewrite Hb; congruence).
    rewrite (bool_decide_eq_false_2 (UploadedFile.id f = a)) by congruence.
    by rewrite !(bool_decide_eq_true_2 _ Hfb).
  - rewrite !(bool_decide_eq_false_2 _ Hfb).
    destruct (decide (UploadedFile.id f = a)) as [Hfa|Hfa].
    + rewrite !(bool_decide_eq_true_2 _ Hfa).
      by rewrite (bool_decide_eq_false_2 (UploadedFile.id (change_a f) = b))
        by (rewrite Ha; congruence).
    + rewrite !(bool_decide_eq_false_2 _ Hfa). by rewrite !(bool_decide_eq_false_2 _ Hfb).
Qed.

Lemma processFile_update_uniform clk file outcome :
  ∃ change,
    (∀ f, UploadedFile.id (change f) = UploadedFile.id f) ∧
    ∀ prev, processFile_update clk file outcome prev
            = update_by_id (UploadedFile.id file) change prev.
Proof.
  unfold processFile_update. destruct outcome as [e|result].
  - eexists. split; [|done]. done.
  - destruct (TransactionExtraction.isValidDocument result); cbn.
    + eexists. split; [|done]. done.
    + eexists. split; [|done]. done.
Qed.

Lemma find_after_other fileId (file : UploadedFile) (l : list UploadedFile) :
  UploadedFile.id file ≠ fileId →
  List.find (has_id fileId)
    (filter (λ p, UploadedFile.id p ≠ UploadedFile.id file) l)
  = List.find (has_id fileId) l.
Proof.
  intros Hne. induction l as [|p l IH]; [done|].
  rewrite filter_cons. cbn. destruct (decide _) as [Hp|Hp]; cbn.
  - by rewrite IH.
  - rewrite IH. destruct (has_id fileId p) eqn:Hhas; [|done].
    apply has_id_true in Hhas. destruct Hp. congruence.
Qed.

(** X12: the results of two documents may arrive in either order. For two
    different ids, settling the extraction of the one and then of the other
    leads to the same state as settling them the other way round (and is
    impossible in both orders when one of them is not awaited). *)
Theorem settling_order_is_irrelevant s fileA netA clkA fileB netB clkB :
  fileA ≠ fileB →
  run s [ ExtractionSettled fileA netA clkA; ExtractionSettled fileB netB clkB ]
  = run s [ ExtractionSettled fileB netB clkB; ExtractionSettled fileA netA clkA ].
Proof.
  intros Hne. unfold run; cbn.
  destruct (List.find (has_id fileA) (awaiting s)) as [a|] eqn:Ha;
    destruct (List.find (has_id fileB) (awaiting s)) as [b|] eqn:Hb; cbn.
  - pose proof (find_has_id _ _ _ Ha) as [_ Hida].
    pose proof (find_has_id _ _ _ Hb) as [_ Hidb].
    rewrite !find_after_other by congruence. rewrite Ha, Hb. cbn.
    unfold processFile_resume; cbn.
    destruct (processFile_update_uniform clkA a
      (Async.settled (extractTransactionsFromImage netA (UploadedFile.preview a))))
      as (ca & Hca & Heqa).
    destruct (processFile_update_uniform clkB b
      (Async.settled (extractTransactionsFromImage netB (UploadedFile.preview b))))
      as (cb & Hcb & Heqb).
    rewrite !Heqa, !Heqb. do 2 f_equal.
    + symmetry. apply update_by_id_comm; [congruence|done..].
    + rewrite !list_filter_filter. apply list_filter_iff.
      intros p. split; intros [? ?]; by split.
  - pose proof (find_has_id _ _ _ Ha) as [_ Hida].
    rewrite find_after_other by congruence. by rewrite Hb.
  - pose proof (find_has_id _ _ _ Hb) as [_ Hidb].
    rewrite find_after_other by congruence. by rewrite Ha.
  - done.
Qed.

Lemma append_same_length (s1 s2 t1 t2 : string) :
  s1 +:+ t1 = s2 +:+ t2 → String.length s1 = String.length s2 → t1 = t2.
Proof.
  revert s2. induction s1 as [|c s1 IH]; intros [|c' s2]; cbn; try done.
  intros [= _ Heq] [= Hlen]. by apply (IH s2).
Qed.

(** X13: the ids given to the transactions of one document are pairwise
    distinct: those of the transactions extracted from a result, as long as
    the readings of the clock for them have the same number of digits (as
    they have from 2001 to 2286), and those of the two fallback transactions,
    as long as the clock does not go backwards. *)
Theorem transaction_ids_of_a_document_are_distinct clk result :
  ((∀ i j, (i < length (TransactionExtraction.transactions result))%nat →
           (j < length (TransactionExtraction.transactions result))%nat →
           String.length (pretty (Date_now clk i))
           = String.length (pretty (Date_now clk j))) →
   NoDup (Transaction.id <$> extracted clk result)) ∧
  ((Date_now clk 0 ≤ Date_now clk 1)%Z →
   NoDup (Transaction.id <$> mockTransactions clk)).
Proof.
  split.
  - intros Hdigits. apply NoDup_alt. intros i j x Hi Hj.
    unfold extracted, map_with_index in Hi, Hj.
    rewrite list_lookup_fmap, list_lookup_imap in Hi, Hj.
    destruct (TransactionExtraction.transactions result !! i) as [ti|] eqn:Hti;
      [|done].
    destruct (TransactionExtraction.transactions result !! j) as [tj|] eqn:Htj;
      [|done].
    apply lookup_lt_Some in Hti, Htj.
    cbn in Hi, Hj. injection Hi as <-. injection Hj as Heq.
    apply append_same_length in Heq; [|by apply Hdigits].
    symmetry. by apply (inj pretty).
  - intros Hclock. cbn. apply NoDup_cons. split; [|apply NoDup_singleton].
    intros Hin. apply list_elem_of_singleton in Hin.
    apply (inj pretty) in Hin. lia.
Qed.

(** ** The chat *)

(** X14: a message that is empty or blank is not sent: [sendMessage] leaves
    the transcript and the input as they are and sends no request. *)
Theorem blank_message_is_not_sent net r selectedFile transactions c :
  String_trim (currentMessage c) = EmptyString →
  sendMessage net r selectedFile transactions c = ([], c).
Proof.
  intros Hblank. unfold sendMessage, sendMessage_call. rewrite Hblank. done.
Qed.

(** X15: a call of [sendMessage] with a message that is not blank adds
    exactly two messages to the end of the transcript, whatever the service
    does: the message of the user as typed (not trimmed) and then one message
    of the assistant, both with the id of the file that was selected when the
    message was sent; what was in the transcript stays, the input is emptied,
    and at most one request is sent. *)
Theorem exchange_appends_two_messages net r selectedFile transactions c :
  String_trim (currentMessage c) ≠ EmptyString →
  ∃ text,
    (sendMessage net r selectedFile transactions c).2
    = {| chatMessages :=
           chatMessages c ++
           [ ChatMessage.mk (pretty (asked_now r)) ChatMessage.user
               (currentMessage c) (asked_at r) (UploadedFile.id <$> selectedFile);
             ChatMessage.mk (pretty (answered_now r + 1)%Z) ChatMessage.ai
               text (answered_at r) (UploadedFile.id <$> selectedFile) ];
         currentMessage := EmptyString |} ∧
    (length (sendMessage net r selectedFile transactions c).1 ≤ 1)%nat.
Proof.
  intros Hblank. unfold sendMessage, sendMessage_call, truthy.
  destruct (decide _) as [|_]; [done|]. cbn.
  eexists. split.
  - unfold sendMessage_resume, answered, asked; cbn. by rewrite <- app_assoc.
  - apply chat_sends_at_most_one.
Qed.

(** X16: the text of the assistant's message. When a credential is
    configured and the service answers with a text, the message is that text
    unchanged; in every other case (no credential, a request that fails, a
    failure status, no text) it is one of the five fixed replies, the one
    that the random index picks, and never a description of the error. *)
Theorem assistant_text_is_reply_or_fixed net r selectedFile transactions c :
  String_trim (currentMessage c) ≠ EmptyString →
  (random_index r < length aiResponses)%nat →
  ∃ a,
    last (chatMessages (sendMessage net r selectedFile transactions c).2) = Some a ∧
    ChatMessage.type a = ChatMessage.ai ∧
    match truthy OPENAI_API_KEY,
          reply net (chat_request (currentMessage c)
                       (UploadedFile.preview <$> selectedFile)
                       (selectedFile ≫= UploadedFile.aiAnalysis)
                       (Some transactions)) with
    | Some _, Some content => ChatMessage.message a = content
    | _, _ =>
      aiResponses !! random_index r = Some (ChatMessage.message a) ∧
      ChatMessage.message a ∈ aiResponses
    end.
Proof.
  intros Hblank Hindex. unfold sendMessage, sendMessage_call, truthy at 1.
  destruct (decide _) as [|_]; [done|]. cbn.
  eexists. split; [apply last_snoc|]. split; [done|]. cbn.
  unfold sendMessage_request.
  destruct (lookup_lt_is_Some_2 aiResponses (random_index r) Hindex) as [fixed Hfixed].
  assert (default EmptyString (aiResponses !! random_index r) = fixed) as Hdefault
    by by rewrite Hfixed.
  assert (fixed ∈ aiResponses) as Hin by by eapply list_elem_of_lookup_2.
  pose proof (chat_settles net (currentMessage c)
    (UploadedFile.preview <$> selectedFile)
    (selectedFile ≫= UploadedFile.aiAnalysis) (Some transactions)) as Hsettles.
  destruct (truthy OPENAI_API_KEY) as [key|].
  - destruct (reply net _) as [content|].
    + by rewrite Hsettles.
    + destruct Hsettles as [e ->]. by rewrite Hdefault, Hfixed.
  - destruct Hsettles as [e ->]. by rewrite Hdefault, Hfixed.
Qed.

(** ** The dashboard *)

(** X17: the effect that loads the insights. With fewer than five
    transactions it sends nothing and leaves the insights as they are. With
    five or more it sends at most one request, ends with the loading flag
    off, and replaces the insights by what the call returns: the items of the
    JSON array of the reply, and the empty list when there is no credential or
    no such reply, so that a failed refresh clears the insights shown
    before. *)
Theorem insights_are_replaced_or_cleared net transactions d :
  ((length transactions < 5)%nat →
   loadAiInsights net transactions d = ([], d)) ∧
  ((5 ≤ length transactions)%nat →
   (length (loadAiInsights net transactions d).1 ≤ 1)%nat ∧
   (loadAiInsights net transactions d).2
   = {| aiInsights :=
          match truthy OPENAI_API_KEY with
          | Some _ =>
            default [] (reply net (insights_request transactions) ≫= JSON_items)
          | None => []
          end;
        isLoadingInsights := false |}).
Proof.
  unfold loadAiInsights. split; intros Hlen.
  - by destruct (decide _); [|lia].
  - destruct (decide _); [lia|]. cbn. split.
    + apply insights_send_at_most_one.
    + f_equal.
      destruct (insights_degrade_to_empty net transactions)
        as (_ & Hquiet & Hnone & Hitems).
      destruct (truthy OPENAI_API_KEY) as [key|] eqn:Hkey.
      * destruct (reply net (insights_request transactions) ≫= JSON_items)
          as [items|] eqn:Hreply.
        -- rewrite (Hitems key items); [done..| |done].
           intros ->. cbn in Hlen. lia.
        -- by rewrite Hnone.
      * rewrite Hquiet by auto. done.
Qed.

(** X18: toggling a goal twice gives back the list of goals; toggling
    changes neither the ids nor the order of the goals and leaves every goal
    of another id as it is; and toggling one goal and deleting another can be
    done in either order. *)
Theorem toggling_goals goalId other prev :
  toggleGoal goalId (toggleGoal goalId prev) = prev ∧
  Goal.id <$> toggleGoal goalId prev = Goal.id <$> prev ∧
  (∀ i goal, prev !! i = Some goal → Goal.id goal ≠ goalId →
             toggleGoal goalId prev !! i = Some goal) ∧
  deleteGoal other (toggleGoal goalId prev)
  = toggleGoal goalId (deleteGoal other prev).
Proof.
  unfold toggleGoal, deleteGoal. split; [|split; [|split]].
  - rewrite <- list_fmap_compose. rewrite <- (list_fmap_id prev) at 2.
    apply list_fmap_ext. intros i [id text category done' created] _. cbn.
    destruct (decide (id = goalId)) as [->|]; cbn.
    + destruct (decide _); [|done]. cbn. by rewrite negb_involutive.
    + by destruct (decide _).
  - rewrite <- list_fmap_compose. apply list_fmap_ext. intros i goal _. cbn.
    by destruct (decide _).
  - intros i goal Hi Hne. rewrite list_lookup_fmap, Hi. cbn.
    by destruct (decide _).
  - induction prev as [|goal prev IH]; [done|].
    rewrite fmap_cons, !filter_cons, IH.
    destruct (decide (Goal.id goal = goalId)) as [Hid|Hid]; cbn;
      destruct (decide (Goal.id goal ≠ other)); cbn; try done.
    + destruct (decide _); [|done]. done.
    + destruct (decide _); [done|]. done.
Qed.

(** ** The setup wizard *)

Lemma omap_at_most {A B} (f : A → option B) (l : list A) :
  (length (omap f l) ≤ length l)%nat.
Proof.
  induction l as [|x l IH]; [done|]. cbn. destruct (f x); cbn; lia.
Qed.

Lemma indexOf_absent x l : x ∉ l → indexOf x l = None.
Proof.
  induction l as [|y l IH]; [done|]. intros Hnot.
  apply not_elem_of_cons in Hnot as [Hne Hnot]. cbn.
  destruct (decide (y = x)); [congruence|]. by rewrite IH.
Qed.

(** Where an imported transaction comes from. *)
Lemma csv_row_origin now today text t :
  t ∈ csvTransactions now today text →
  ∃ k line,
    split_on (ascii_of_nat 10) text !! S k = Some line ∧
    csv_row (csv_headers (split_on (ascii_of_nat 10) text)) now today (S k) line
    = Some t.
Proof.
  unfold csvTransactions. intros Ht.
  apply list_elem_of_omap in Ht as (row & Hrow & ->).
  apply elem_of_lookup_imap in Hrow as (k & line & Heq & Hline).
  rewrite lookup_tail in Hline. by exists k, line.
Qed.

(** X19: what [processCSV] imports from a text. Every imported transaction
    has an amount above zero and comes from a line after the first one that
    has at least four fields between commas; its id is the time followed by
    the number of the line. There are at most as many of them as lines after
    the first, so that an empty text, or a text of a header line alone,
    imports nothing. *)
Theorem csv_import_keeps_positive_amounts now today text :
  (∀ t, t ∈ csvTransactions now today text →
        num_positive (Row.amount t) = true ∧
        ∃ i line,
          (1 ≤ i)%nat ∧
          split_on (ascii_of_nat 10) text !! i = Some line ∧
          (4 ≤ length (split_on "," line))%nat ∧
          Row.id t = pretty (now i) +:+ pretty i) ∧
  (length (csvTransactions now today text)
   ≤ length (split_on (ascii_of_nat 10) text) - 1)%nat.
Proof.
  split.
  - intros t Ht. apply csv_row_origin in Ht as (k & line & Hline & Hrow).
    unfold csv_row in Hrow. destruct (decide _) as [Hfields|]; [|done].
    cbn in Hrow. destruct (num_positive _) eqn:Hpositive; [|done].
    injection Hrow as <-. cbn. split; [done|].
    exists (S k), line. repeat split; [lia|done..].
  - unfold csvTransactions. etrans; [apply omap_at_most|].
    rewrite length_imap. destruct (split_on _ text); cbn; lia.
Qed.

(** X20: columns that the header line of the file does not name. An imported
    transaction takes the category [other] when there is no [category]
    column, the description [Imported transaction] when there is no
    [description] column, the type [expense] when there is no [type] column,
    and the amount [parseFloat('0')] when there is no [amount] column, so
    that a file without an amount column imports nothing unless that amount
    counts as above zero. *)
Theorem csv_missing_columns_take_defaults now today text t :
  t ∈ csvTransactions now today text →
  ("category" ∉ csv_headers (split_on (ascii_of_nat 10) text) →
   Row.category t = "other") ∧
  ("description" ∉ csv_headers (split_on (ascii_of_nat 10) text) →
   Row.description t = "Imported transaction") ∧
  ("type" ∉ csv_headers (split_on (ascii_of_nat 10) text) →
   Row.type t = "expense") ∧
  ("amount" ∉ csv_headers (split_on (ascii_of_nat 10) text) →
   Row.amount t = parseFloat "0" ∧ num_positive (parseFloat "0") = true).
Proof.
  intros Ht. apply csv_row_origin in Ht as (k & line & Hline & Hrow).
  unfold csv_row in Hrow. destruct (decide _) as [Hfields|]; [|done].
  cbn in Hrow. destruct (num_positive _) eqn:Hpositive; [|done].
  injection Hrow as <-. cbn in Hpositive |- *. unfold cell in Hpositive |- *.
  split; [|split; [|split]]; intros Habsent;
    try rewrite (indexOf_absent _ _ Habsent) in Hpositive;
    rewrite (indexOf_absent _ _ Habsent); cbn in Hpositive |- *; done.
Qed.

Lemma wizard_step_bounds w e w' handed :
  (Wizard.currentStep w ≤ 2)%nat →
  (Wizard.currentStep w = 2 → (5 ≤ length (Wizard.transactions w))%nat) →
  wizard_step w e = Some (w', handed) →
  (Wizard.currentStep w' ≤ 2)%nat ∧
  (Wizard.currentStep w' = 2 → (5 ≤ length (Wizard.transactions w'))%nat) ∧
  (∀ l, handed = Some l → (5 ≤ length l)%nat).
Proof.
  intros Hle Hfive Hstep.
  destruct e as [| |form|now today|id|files| |now today text]; cbn in Hstep.
  - unfold canProceed, nextStep in Hstep.
    destruct (decide (Wizard.currentStep w = 1)) as [Hone|Hother].
    + case_bool_decide as Hcount; [|done].
      destruct (decide _) as [_|Hlast]; [|cbn in Hlast; lia].
      injection Hstep as <- <-. cbn. split; [lia|]. by split.
    + destruct (decide _) as [Hearly|Hlast]; injection Hstep as <- <-.
      * cbn in Hearly |- *. split; [lia|]. split; [lia|done].
      * cbn in Hlast. split; [done|]. split; [done|]. intros l [= <-]. apply Hfive. lia.
  - destruct (decide _) as [|Hpositive]; [done|]. injection Hstep as <- <-.
    unfold prevStep. destruct (decide _); [|lia]. cbn. split; [lia|]. split; [lia|done].
  - destruct (decide _) as [Hone|]; [|done]. injection Hstep as <- <-. cbn.
    split; [lia|]. split; [lia|done].
  - destruct (decide _) as [Hone|]; [|done]. injection Hstep as <- <-.
    unfold addTransaction.
    repeat case_match; cbn; (split; [lia|]); (split; [lia|done]).
  - destruct (decide _) as [Hone|]; [|done]. injection Hstep as <- <-. cbn.
    split; [lia|]. split; [lia|done].
  - destruct (decide _) as [Hone|]; [|done]. injection Hstep as <- <-. cbn.
    split; [lia|]. split; [lia|done].
  - destruct (decide _) as [Hone|]; [|done]. injection Hstep as <- <-.
    unfold processCSV. destruct (Wizard.uploadedFile w); cbn;
      (split; [lia|]); (split; [lia|done]).
  - destruct (decide _); [done|]. injection Hstep as <- <-. cbn.
    split; [done|]. split; [|done]. intros Htwo. rewrite length_app.
    specialize (Hfive Htwo). lia.
Qed.

Lemma wizard_run_bounds w events w' handed :
  (Wizard.currentStep w ≤ 2)%nat →
  (Wizard.currentStep w = 2 → (5 ≤ length (Wizard.transactions w))%nat) →
  wizard_run w events = Some (w', handed) →
  (Wizard.currentStep w' ≤ 2)%nat ∧
  (Wizard.currentStep w' = 2 → (5 ≤ length (Wizard.transactions w'))%nat) ∧
  (∀ l, l ∈ handed → (5 ≤ length l)%nat).
Proof.
  revert w handed. induction events as [|e events IH]; intros w handed Hle Hfive; cbn.
  - intros [= <- <-]. split; [done|]. split; [done|].
    intros l Hl. by apply elem_of_nil in Hl.
  - destruct (wizard_step w e) as [[w1 out]|] eqn:Hstep; [|done]. cbn.
    destruct (wizard_run w1 events) as [[w2 later]|] eqn:Hrun; [|done]. cbn.
    intros [= <- <-].
    destruct (wizard_step_bounds w e w1 out Hle Hfive Hstep) as (Hle1 & Hfive1 & Hout).
    destruct (IH w1 later Hle1 Hfive1 Hrun) as (Hle2 & Hfive2 & Hlater).
    split; [done|]. split; [done|]. intros l Hl.
    apply elem_of_app in Hl as [Hl|Hl]; [|by apply Hlater].
    destruct out as [l'|]; [|by apply elem_of_nil in Hl].
    apply list_elem_of_singleton in Hl as ->. by apply Hout.
Qed.

(** X21: the wizard hands over at least five transactions. Whatever the user
    does on the pages of the wizard (continue and back where the buttons are
    enabled, editing, adding, removing and importing on the transactions
    step, files read late), the step stays one of the three steps, the last
    step is only ever shown with five transactions or more, and every call
    of [onComplete] passes five transactions or more. *)
Theorem wizard_completes_with_five today events w handed :
  wizard_run (wizard_mounted today) events = Some (w, handed) →
  (Wizard.currentStep w < length steps)%nat ∧
  (Wizard.currentStep w = 2 → (5 ≤ length (Wizard.transactions w))%nat) ∧
  (∀ l, l ∈ handed → (5 ≤ length l)%nat).
Proof.
  intros Hrun.
  destruct (wizard_run_bounds (wizard_mounted today) events w handed)
    as (Hle & Hfive & Hhanded); [cbn; lia|done|done|].
  split; [cbn; lia|]. by split.
Qed.

End FinanceTracker.

(** * The model at concrete inputs *)

Section Runs.

Import Sample.

(** The photo has been read, and as a result it is listed and its extraction
    is awaited. *)
Local Abbreviation photo_read := (FileRead photo photo_url photo_id uploaded_at).
Local Abbreviation uploaded := (newFile (number := Z) photo photo_url photo_id uploaded_at).
Local Abbreviation awaiting_photo :=
  (onDrop_onload photo photo_url photo_id uploaded_at (mounted (number := Z) [])).

(** The photo is rejected although the result carries a transaction. *)
Lemma invalid_document_witness :
  ∃ s', step key Sample.JSON_parse_extraction awaiting_photo
          (ExtractionSettled photo_id (replying "rejection") clk) = Some s' ∧
        ids (uploadedFiles s') = ids (uploadedFiles awaiting_photo) ∧
        ∀ f', f' ∈ uploadedFiles s' → UploadedFile.id f' = photo_id →
              UploadedFile.status f' = error ∧
              UploadedFile.extractedTransactions f' = [].
Proof.
  apply (invalid_document_is_rejected_and_empty key Sample.JSON_parse_extraction
           [] [photo_read] awaiting_photo photo_id uploaded
           (replying "rejection") clk unrelated_photo);
    vm_compute; reflexivity.
Defined.

(** The service cannot be reached: the photo is completed by the fallback. *)
Lemma failed_extraction_witness :
  ∃ s', step key Sample.JSON_parse_extraction awaiting_photo
          (ExtractionSettled photo_id unreachable clk) = Some s' ∧
        ∀ f', f' ∈ uploadedFiles s' → UploadedFile.id f' = photo_id →
              UploadedFile.status f' = completed ∧
              UploadedFile.extractedTransactions f' ≠ [] ∧
              UploadedFile.aiAnalysis f' = Some (mockAnalysis clk uploaded).
Proof.
  destruct (failed_extraction_completes_with_fallback key
              Sample.JSON_parse_extraction [] [photo_read] awaiting_photo photo_id
              uploaded unreachable clk TransportError)
    as (s' & Hstep & _ & Hdoc);
    [vm_compute; reflexivity.. | left; reflexivity |].
  exists s'. split; [exact Hstep|].
  intros f' Hf' Hid. destruct (Hdoc f' Hf' Hid) as (? & _ & ? & ? & _). by repeat split.
Defined.

(** C3, as stated, fails: without a credential the call of the document is
    made, it rejects before any request is sent, and the fallback absorbs the
    failure: the photo ends [completed] with the two mock transactions. *)
Lemma fallback_without_credential :
  extraction_failure None Sample.JSON_parse_extraction (replying "receipt_json") photo_url
    = Some ServiceUnavailable ∧
  extractTransactionsFromImage None Sample.JSON_parse_extraction
    (replying "receipt_json") photo_url
    = Async.mk [] (inl (Error "OpenAI API key not configured")) ∧
  run None Sample.JSON_parse_extraction (mounted [])
    [ photo_read; ExtractionSettled photo_id (replying "receipt_json") clk ]
    = Some {| uploadedFiles :=
                [ finished (mockTransactions clk) (mockAnalysis clk uploaded) uploaded ];
              selectedFile := None;
              isProcessing := false;
              transactions := [];
              awaiting := [] |} ∧
  UploadedFile.status
    (finished (mockTransactions clk) (mockAnalysis clk uploaded) uploaded) = completed ∧
  length (mockTransactions (number := Z) clk) = 2 ∧
  ServiceUnavailable ≠ TransportError ∧
  ServiceUnavailable ≠ MalformedResponse.
Proof. vm_compute. by repeat split. Qed.

Lemma fallback_on_every_failure_witness :
  ∃ s', step None Sample.JSON_parse_extraction awaiting_photo
          (ExtractionSettled photo_id (replying "receipt_json") clk) = Some s' ∧
        uploadedFiles s'
        = update_by_id photo_id
            (finished (mockTransactions clk) (mockAnalysis clk uploaded))
            (uploadedFiles awaiting_photo).
Proof.
  destruct (fallback_on_every_failure None Sample.JSON_parse_extraction
              awaiting_photo photo_id uploaded (replying "receipt_json") clk)
    as (s' & Hstep & Hkey & Hfallback & _); [vm_compute; reflexivity|].
  exists s'. split; [exact Hstep|].
  apply (Hfallback ServiceUnavailable). apply Hkey. reflexivity.
Defined.

(** C4, as stated, fails: the analysis of the rejected photo is not the
    reason [not a financial document] that the service gave, but that reason
    after [Document rejected: ]. *)
Lemma rejection_reason_is_prefixed :
  TransactionExtraction.rejectionReason unrelated_photo
    = Some "not a financial document" ∧
  ∃ f',
    run key Sample.JSON_parse_extraction (mounted [])
      [ photo_read; ExtractionSettled photo_id (replying "rejection") clk ]
      = Some {| uploadedFiles := [ f' ];
                selectedFile := None;
                isProcessing := false;
                transactions := [];
                awaiting := [] |} ∧
    UploadedFile.status f' = error ∧
    UploadedFile.aiAnalysis f' = Some "Document rejected: not a financial document" ∧
    UploadedFile.aiAnalysis f'
      ≠ TransactionExtraction.rejectionReason unrelated_photo.
Proof.
  split; [reflexivity|]. eexists. split; [vm_compute; reflexivity|].
  split; [reflexivity|]. split; [reflexivity|]. discriminate.
Qed.

Lemma rejected_analysis_witness :
  ∃ s', step key Sample.JSON_parse_extraction awaiting_photo
          (ExtractionSettled photo_id (replying "rejection") clk) = Some s' ∧
        ∀ f', f' ∈ uploadedFiles s' → UploadedFile.id f' = photo_id →
              UploadedFile.status f' = error ∧
              UploadedFile.aiAnalysis f'
              = Some "Document rejected: not a financial document".
Proof.
  apply (rejected_analysis_is_prefixed_reason key Sample.JSON_parse_extraction
           [] [photo_read] awaiting_photo photo_id uploaded
           (replying "rejection") clk unrelated_photo);
    vm_compute; reflexivity.
Defined.

(** Of 60 purchases, the chat summary holds the 50 numbered 10 to 59. *)
Lemma chat_summary_witness :
  Async.sent
    (chatAboutReceipt key unreachable "Where does my money go?" None None
       (Some (ledger 60)))
    = [ chat_request key "Where does my money go?" None None (Some (ledger 60)) ] ∧
  length (most_recent 50 (ledger 60)) = 50 ∧
  most_recent 50 (ledger 60) = purchase <$> seq 10 50.
Proof.
  destruct (chat_summary_has_the_last_fifty key unreachable
              "Where does my money go?" None None (ledger 60) "sk-test")
    as (Hsent & _ & Hlength & _); [reflexivity | vm_compute; lia |].
  split; [exact Hsent|]. split; [exact Hlength|]. vm_compute. reflexivity.
Defined.

(** Of 25 purchases, the insight request holds the 20 numbered 5 to 24. *)
Lemma insights_request_witness :
  messages (body (insights_request key Sample.JSON_stringify (ledger 25)))
    = [ {| role := system; content := content_text insights_system_prompt |};
        {| role := user;
           content := content_text
             ("Analyze these transactions and provide insights: " +:+
              Sample.JSON_stringify (most_recent 20 (ledger 25))) |} ] ∧
  most_recent 20 (ledger 25) = purchase <$> seq 5 20.
Proof.
  destruct (insights_request_has_the_last_twenty key Sample.JSON_parse
              Sample.JSON_stringify unreachable (ledger 25) "sk-test")
    as (_ & Hmessages & _); [reflexivity | vm_compute; lia |].
  split; [exact Hmessages|]. vm_compute. reflexivity.
Defined.

(** C7 at the reply [[1]]: the text parses as a JSON array, but not as an
    array of strings, and the call returns the array with the number in it
    instead of the empty list, against the declared result type [string[]]. *)
Lemma insights_of_an_array_of_numbers :
  reply (replying "[1]") (insights_request key Sample.JSON_stringify (ledger 5))
    = Some "[1]" ∧
  JSON_strings Sample.JSON_parse "[1]" = None ∧
  Async.settled
    (generateFinancialInsights key Sample.JSON_parse Sample.JSON_stringify
       (replying "[1]") (ledger 5))
    = inr [ JNumber 100%Z ] ∧
  Async.settled
    (generateFinancialInsights key Sample.JSON_parse Sample.JSON_stringify
       (replying "[1]") (ledger 5))
    ≠ inr [].
Proof. vm_compute. by repeat split. Qed.

(** The reply [null] is JSON but not an array: no insights. *)
Lemma insights_degrade_witness :
  Async.settled
    (generateFinancialInsights key Sample.JSON_parse Sample.JSON_stringify
       (replying "null") (ledger 5))
    = inr [] ∧
  generateFinancialInsights key Sample.JSON_parse Sample.JSON_stringify
    (replying "[1]") []
    = Async.mk [] (inr []).
Proof.
  destruct (insights_degrade_to_empty key Sample.JSON_parse Sample.JSON_stringify
              (replying "null") (ledger 5)) as (_ & _ & Hnone & _).
  destruct (insights_degrade_to_empty key Sample.JSON_parse Sample.JSON_stringify
              (replying "[1]") []) as (_ & Hquiet & _).
  split; [apply Hnone; vm_compute; reflexivity | apply Hquiet; by right].
Defined.

(** The photo, completed by the fallback, is merged twice. *)
Lemma merging_twice_witness :
  ∃ s1 s2,
    step key Sample.JSON_parse_extraction
      (processFile_resume key Sample.JSON_parse_extraction unreachable clk uploaded
         awaiting_photo)
      (AddToTrackerClicked photo_id) = Some s1 ∧
    step key Sample.JSON_parse_extraction s1 (AddToTrackerClicked photo_id) = Some s2 ∧
    transactions s1 = mockTransactions clk ∧
    transactions s2 = (mockTransactions clk ++ mockTransactions clk)%list.
Proof.
  destruct (merging_twice_duplicates key Sample.JSON_parse_extraction
              (processFile_resume key Sample.JSON_parse_extraction unreachable clk
                 uploaded awaiting_photo)
              photo_id
              (finished (mockTransactions clk) (mockAnalysis clk uploaded) uploaded))
    as (s1 & s2 & Hstep1 & Hstep2 & Hledger1 & Hledger2 & _);
    [vm_compute; reflexivity|].
  exists s1, s2. split; [exact Hstep1|]. split; [exact Hstep2|].
  split; [exact Hledger1 | exact Hledger2].
Defined.

(** The rejection of the photo is the one change of its status. *)
Lemma status_changes_once_witness :
  UploadedFile.status (rejected unrelated_photo uploaded) = UploadedFile.status uploaded ∨
  (UploadedFile.status uploaded = processing ∧
   (UploadedFile.status (rejected unrelated_photo uploaded) = completed ∨
    UploadedFile.status (rejected unrelated_photo uploaded) = error) ∧
   ∃ net clk',
     ExtractionSettled photo_id (replying "rejection") clk
     = ExtractionSettled (UploadedFile.id uploaded) net clk').
Proof.
  destruct (status_changes_once key Sample.JSON_parse_extraction [] [photo_read]
              awaiting_photo) as (_ & Hstep & _); [vm_compute; reflexivity|].
  apply (Hstep (ExtractionSettled photo_id (replying "rejection") clk)
           (processFile_resume key Sample.JSON_parse_extraction
              (replying "rejection") clk uploaded awaiting_photo)).
  - vm_compute. reflexivity.
  - apply list_elem_of_here.
  - apply list_elem_of_here.
  - reflexivity.
Defined.

(** The photo is deleted while its extraction is awaited: the late result
    changes nothing. *)
Lemma late_result_witness :
  ∃ s', step key Sample.JSON_parse_extraction (deleteFile photo_id awaiting_photo)
          (ExtractionSettled photo_id (replying "receipt_json") clk) = Some s' ∧
        uploadedFiles s' = [].
Proof.
  destruct (late_result_is_dropped key Sample.JSON_parse_extraction
              (deleteFile photo_id awaiting_photo) photo_id uploaded
              (replying "receipt_json") clk (inl FetchRejected) [])
    as (_ & _ & _ & Hlate & _).
  destruct Hlate as (s' & Hstep & Hsame);
    [vm_compute; reflexivity | apply not_elem_of_nil |].
  exists s'. split; [exact Hstep | exact Hsame].
Defined.

(** The scenario of a receipt with two line items, of 12.50 and of 3.00:
    the document is completed with two expenses, and merging it puts both in
    the ledger. *)
Example receipt_scenario :
  run key Sample.JSON_parse_extraction (mounted [])
    [ photo_read;
      ExtractionSettled photo_id (replying "receipt_json") clk;
      AddToTrackerClicked photo_id ]
  = Some
      {| uploadedFiles :=
           [ finished (extracted clk lunch_receipt) "A cafe receipt with two items."
               uploaded ];
         selectedFile := None;
         isProcessing := false;
         transactions :=
           [ Transaction.mk "17621280000000" "2026-11-02" 1250%Z "food" "Sandwich" expense;
             Transaction.mk "17621280000011" "2026-11-02" 300%Z "food" "Coffee" expense ];
         awaiting := [] |}.
Proof. vm_compute. reflexivity. Qed.

(** The service answers a scanned bill with status 500: the fallback gives
    the two mock transactions and an analysis with their total. *)
Example fallback_for_a_scan :
  run key Sample.JSON_parse_extraction (mounted [])
    [ FileRead scan scan_url "1762128000000a1b2c3d4e" uploaded_at;
      ExtractionSettled "1762128000000a1b2c3d4e" (refusing 500) clk ]
  = Some
      {| uploadedFiles :=
           [ UploadedFile.mk "1762128000000a1b2c3d4e" scan scan_url pdf uploaded_at
               completed
               [ Transaction.mk "1762128000000" "2026-11-03" 2599%Z "food"
                   "Grocery items from receipt" expense;
                 Transaction.mk "1762128000002" "2026-11-03" 350%Z "food"
                   "Beverage from receipt" expense ]
               (Some "I've analyzed your bill and found 2 transactions. The total amount is $29.49. This appears to be a valid financial document with multiple line items extracted as separate transactions.") ];
         selectedFile := None;
         isProcessing := false;
         transactions := [];
         awaiting := [] |}.
Proof. vm_compute. reflexivity. Qed.

(** One line of the chat summary. *)
Example summary_line_of_a_purchase :
  summary_line (purchase 12) = "2026-10-01: -$12 - purchase 12 (food)".
Proof. vm_compute. reflexivity. Qed.

(** ** Further properties at concrete inputs *)

Local Abbreviation awaiting_both :=
  (onDrop_onload scan scan_url scan_id uploaded_at awaiting_photo).
Local Abbreviation moment :=
  {| asked_now := 1762128000000; asked_at := "2026-11-03T00:00:00.000Z";
     answered_now := 1762128001500; answered_at := "2026-11-03T00:00:01.500Z";
     random_index := 3 |}.
Local Abbreviation typing text := {| chatMessages := []; currentMessage := text |}.
Local Abbreviation five_by_hand :=
  [ ContinueClicked;
    FormEdited lunch_form; AddClicked 1762128000001 "2026-11-03";
    FormEdited lunch_form; AddClicked 1762128000002 "2026-11-03";
    FormEdited lunch_form; AddClicked 1762128000003 "2026-11-03";
    FormEdited lunch_form; AddClicked 1762128000004 "2026-11-03";
    FormEdited lunch_form; AddClicked 1762128000005 "2026-11-03";
    ContinueClicked; ContinueClicked ].

Lemma small_ledgers_witness :
  transactionSummary (ledger 3) = String.concat LF (summary_line <$> ledger 3).
Proof.
  destruct (small_ledgers_are_sent_whole key Sample.JSON_stringify (ledger 3))
    as [Hchat _].
  apply Hchat. vm_compute. lia.
Defined.

Lemma only_the_window_witness :
  generateFinancialInsights key Sample.JSON_parse Sample.JSON_stringify
    (replying "[1]") (ledger 3 ++ ledger 20)
  = generateFinancialInsights key Sample.JSON_parse Sample.JSON_stringify
      (replying "[1]") (ledger 20).
Proof.
  destruct (only_the_window_is_sent key Sample.JSON_parse Sample.JSON_stringify
              (replying "[1]") EmptyString None None (ledger 3) (ledger 20))
    as [_ Hinsights].
  apply Hinsights. vm_compute. lia.
Defined.


Lemma processing_iff_awaited_witness :
  UploadedFile.status uploaded = processing ↔
  UploadedFile.id uploaded ∈ ids (awaiting awaiting_photo).
Proof.
  apply (processing_iff_awaited key Sample.JSON_parse_extraction [] [photo_read]
           awaiting_photo uploaded); [vm_compute; reflexivity|apply list_elem_of_here].
Defined.

(** Merging the rejected photo adds nothing to the ledger. *)
Lemma unfinished_merge_witness :
  ∃ s', step key Sample.JSON_parse_extraction
          (processFile_resume key Sample.JSON_parse_extraction (replying "rejection")
             clk uploaded awaiting_photo)
          (AddToTrackerClicked photo_id) = Some s' ∧
        transactions s' = [].
Proof.
  destruct (unfinished_documents_merge_nothing key Sample.JSON_parse_extraction
              [] [ photo_read; ExtractionSettled photo_id (replying "rejection") clk ]
              (processFile_resume key Sample.JSON_parse_extraction
                 (replying "rejection") clk uploaded awaiting_photo)
              photo_id (rejected unrelated_photo uploaded))
    as (_ & s' & Hstep & Hledger);
    [vm_compute; reflexivity | vm_compute; reflexivity | discriminate |].
  exists s'. split; [exact Hstep | exact Hledger].
Defined.

(** An upload, a fallback, a merge and a deletion on a ledger of three. *)
Lemma ledger_grows_witness :
  ∃ s', run key Sample.JSON_parse_extraction (mounted (ledger 3))
          [ photo_read; ExtractionSettled photo_id unreachable clk;
            AddToTrackerClicked photo_id; DeleteClicked photo_id ] = Some s' ∧
        ledger 3 `prefix_of` transactions s' ∧
        length (transactions s') = 5.
Proof.
  destruct (run key Sample.JSON_parse_extraction (mounted (ledger 3))
              [ photo_read; ExtractionSettled photo_id unreachable clk;
                AddToTrackerClicked photo_id; DeleteClicked photo_id ])
    as [s'|] eqn:Hrun; [|vm_compute in Hrun; discriminate].
  exists s'. split; [reflexivity|]. split.
  - apply (ledger_grows_by_merges_only key Sample.JSON_parse_extraction
             (mounted (ledger 3)) _ s' Hrun).
  - vm_compute in Hrun. injection Hrun as <-. reflexivity.
Defined.

Lemma selection_witness :
  UploadedFile.id uploaded ∈ ids (uploadedFiles (selectFile photo_id awaiting_photo)).
Proof.
  apply (selection_is_listed key Sample.JSON_parse_extraction []
           [ photo_read; FileSelected photo_id ] (selectFile photo_id awaiting_photo)
           uploaded); vm_compute; reflexivity.
Defined.

Lemma delete_witness :
  ∃ s', step key Sample.JSON_parse_extraction awaiting_both (DeleteClicked photo_id)
        = Some s' ∧
        length (uploadedFiles s') + 1 = 2.
Proof.
  destruct (delete_removes_one_document key Sample.JSON_parse_extraction []
              [ photo_read; FileRead scan scan_url scan_id uploaded_at ]
              awaiting_both photo_id uploaded)
    as (s' & Hstep & Hlength & _); [vm_compute; reflexivity..|].
  exists s'. split; [exact Hstep | exact Hlength].
Defined.

(** The photo is rejected and the scan falls back, in either order. *)
Lemma settling_order_witness :
  run key Sample.JSON_parse_extraction awaiting_both
    [ ExtractionSettled photo_id (replying "rejection") clk;
      ExtractionSettled scan_id unreachable clk ]
  = run key Sample.JSON_parse_extraction awaiting_both
      [ ExtractionSettled scan_id unreachable clk;
        ExtractionSettled photo_id (replying "rejection") clk ].
Proof.
  apply (settling_order_is_irrelevant key Sample.JSON_parse_extraction awaiting_both
           photo_id (replying "rejection") clk scan_id unreachable clk).
  discriminate.
Defined.

Lemma transaction_ids_witness :
  NoDup (Transaction.id <$> extracted clk lunch_receipt) ∧
  NoDup (Transaction.id <$> mockTransactions (number := Z) clk).
Proof.
  destruct (transaction_ids_of_a_document_are_distinct clk lunch_receipt)
    as [Hextracted Hmock].
  split; [apply Hextracted | apply Hmock].
  - intros [|[|i]] [|[|j]] Hi Hj; cbn in Hi, Hj; try lia; vm_compute; reflexivity.
  - vm_compute. discriminate.
Defined.

Lemma blank_message_witness :
  sendMessage key Sample.String_trim (replying "Hello") moment None (ledger 3)
    (typing "   ")
  = ([], typing "   ").
Proof.
  apply (blank_message_is_not_sent key Sample.String_trim). reflexivity.
Defined.

Lemma exchange_witness :
  ∃ text,
    (sendMessage key Sample.String_trim unreachable moment (Some uploaded) (ledger 3)
       (typing " Is this a fair price? ")).2
    = {| chatMessages :=
           [ ChatMessage.mk "1762128000000" ChatMessage.user " Is this a fair price? "
               "2026-11-03T00:00:00.000Z" (Some photo_id);
             ChatMessage.mk "1762128001501" ChatMessage.ai text
               "2026-11-03T00:00:01.500Z" (Some photo_id) ];
         currentMessage := EmptyString |}.
Proof.
  destruct (exchange_appends_two_messages key Sample.String_trim unreachable moment
              (Some uploaded) (ledger 3) (typing " Is this a fair price? "))
    as (text & Hchat & _); [vm_compute; discriminate|].
  exists text. exact Hchat.
Defined.

(** The service cannot be reached: the assistant gives the fourth fixed reply. *)
Lemma assistant_text_witness :
  ∃ a,
    last (chatMessages
            (sendMessage key Sample.String_trim unreachable moment None (ledger 3)
               (typing "Is this a fair price?")).2) = Some a ∧
    ChatMessage.message a
    = "Looking at this receipt, I notice a few items that might be categorized differently. Would you like me to suggest better categories for budgeting?".
Proof.
  destruct (assistant_text_is_reply_or_fixed key Sample.String_trim unreachable moment
              None (ledger 3) (typing "Is this a fair price?"))
    as (a & Hlast & _ & Htext); [vm_compute; discriminate | vm_compute; lia |].
  exists a. split; [exact Hlast|].
  destruct Htext as [Hpick _]. vm_compute in Hpick.
  injection Hpick as Hpick. symmetry. exact Hpick.
Defined.

(** A refresh that gets [null] back clears the insight shown before. *)
Lemma insights_cleared_witness :
  (loadAiInsights key Sample.JSON_parse Sample.JSON_stringify (replying "null")
     (ledger 5) {| aiInsights := [ JString "Cook at home." ]; isLoadingInsights := false |}).2
  = {| aiInsights := []; isLoadingInsights := false |}.
Proof.
  destruct (insights_are_replaced_or_cleared key Sample.JSON_parse
              Sample.JSON_stringify (replying "null") (ledger 5)
              {| aiInsights := [ JString "Cook at home." ]; isLoadingInsights := false |})
    as [_ Hload].
  destruct Hload as [_ Hstate]; [vm_compute; lia|]. exact Hstate.
Defined.

(** A file without category and type columns: the purchase is imported as an
    expense of the category [other]. *)
Lemma csv_defaults_witness :
  ∃ t,
    csvTransactions Sample.String_trim Sample.String_toLowerCase Sample.parseFloat
      Sample.num_positive line_clock line_day csv_plain = [ t ] ∧
    Row.category t = "other" ∧ Row.type t = "expense".
Proof.
  exists (Row.mk "17621280000011" "2026-10-01" 1250%Z "other" "Lunch" "expense").
  split; [vm_compute; reflexivity|].
  destruct (csv_missing_columns_take_defaults Sample.String_trim
              Sample.String_toLowerCase Sample.parseFloat Sample.num_positive
              line_clock line_day csv_plain
              (Row.mk "17621280000011" "2026-10-01" 1250%Z "other" "Lunch" "expense"))
    as (Hcategory & _ & Htype & _).
  - vm_compute. apply list_elem_of_here.
  - split; [apply Hcategory | apply Htype]; vm_compute; intros Hin;
      repeat (apply elem_of_cons in Hin as [Hin|Hin]; [discriminate|]);
      by apply elem_of_nil in Hin.
Defined.

(** Five transactions are added by hand, and the wizard is completed. *)
Lemma wizard_witness :
  ∃ w l,
    wizard_run Sample.String_trim Sample.String_toLowerCase Sample.parseFloat
      Sample.num_positive (wizard_mounted "2026-11-03") five_by_hand
    = Some (w, [ l ]) ∧
    (5 ≤ length l)%nat.
Proof.
  destruct (wizard_run Sample.String_trim Sample.String_toLowerCase Sample.parseFloat
              Sample.num_positive (wizard_mounted "2026-11-03") five_by_hand)
    as [[w handed]|] eqn:Hrun; [|vm_compute in Hrun; discriminate].
  destruct (wizard_completes_with_five Sample.String_trim Sample.String_toLowerCase
              Sample.parseFloat Sample.num_positive "2026-11-03" five_by_hand
              w handed Hrun) as (_ & _ & Hhanded).
  vm_compute in Hrun. injection Hrun as <- <-.
  eexists _, _. split; [reflexivity|]. apply Hhanded, list_elem_of_here.
Defined.

(** What the wizard imports from the file of [Sample]: the purchase and the
    purchase without category and type, and neither the refund nor the line
    of two fields nor the header line. *)
Example csv_import_of_a_file :
  csvTransactions Sample.String_trim Sample.String_toLowerCase Sample.parseFloat
    Sample.num_positive line_clock line_day csv_text
  = [ Row.mk "17621280000011" "2026-10-01" 1250%Z "food" "Lunch" "expense";
      Row.mk "17621280000044" "2026-10-03" 300%Z "other" "Coffee" "expense" ].
Proof. vm_compute. reflexivity. Qed.

End Runs.
